(** * Horoscope crawler and Kakao sender: a shallow embedding

    The development follows the two scripts of the repository:

    - [scripts/오하아사_크롤링.py]: the page-to-table extraction
      ([_text_after_label], [_count_star], [parse_zodiac]) and the browser
      session around it ([fetch_html], [get_zodiak_data]);
    - [scripts/send_horoscope_kakao.py]: the presentation helpers
      ([translate_text], [stars]), the Kakao requests
      ([refresh_access_token], [send_kakao_memo]), the message
      ([build_message_from_row]) and the run of the script ([main]).

    Python [str] values are represented by their UTF-8 encoding in Rocq's
    [string] (a sequence of bytes).  Equality, concatenation and substring
    removal on well-formed UTF-8 coincide with the same operations on code
    points; [strip] is written so that it removes exactly the encodings of
    the characters for which Python's [str.isspace] holds.

    The input of the extractor is the tree that
    [BeautifulSoup(html, "html.parser")] builds; the HTML tokenizer itself
    and the browser session are library code and stay outside the model.

    Of the limits of the interpreter, the one on the count of a string
    repetition ([sys.maxsize]) is part of the model; those that depend on
    the machine or its settings (memory, recursion depth) are not. *)

From stdpp Require Import gmap strings list sorting pretty.

Open Scope string_scope.

(** ** Python exceptions and outcomes *)

Inductive exception :=
| ValueError
| KeyError
| TypeError
| AttributeError
| OverflowError
| LibraryError (name : string).

Inductive outcome (A : Type) :=
| Returns (a : A)
| Raises (e : exception).
Arguments Returns {A} a.
Arguments Raises {A} e.

#[global] Instance outcome_ret : MRet outcome := λ A a, Returns a.
#[global] Instance outcome_bind : MBind outcome := λ A B f m,
  match m with
  | Returns a => f a
  | Raises e => Raises e
  end.

(** [try: body / except Exception: handler]. *)
Definition try_except {A} (body : outcome A) (handler : exception → outcome A)
  : outcome A :=
  match body with
  | Returns a => Returns a
  | Raises e => handler e
  end.

(** ** Python string operations *)

Module PyStr.

Definition code (c : Ascii.ascii) : N := Ascii.N_of_ascii c.

(** One-byte white space: U+0009..U+000D, U+001C..U+0020. *)
Definition space1 (c : Ascii.ascii) : bool :=
  let n := code c in
  ((9 <=? n) && (n <=? 13) || (28 <=? n) && (n <=? 32))%N.

(** Two-byte white space: U+0085 (C2 85) and U+00A0 (C2 A0). *)
Definition space2 (c1 c2 : Ascii.ascii) : bool :=
  ((code c1 =? 194) && ((code c2 =? 133) || (code c2 =? 160)))%N.

(** Three-byte white space: U+1680 (E1 9A 80), U+2000..U+200A
    (E2 80 80..8A), U+2028, U+2029, U+202F (E2 80 A8/A9/AF),
    U+205F (E2 81 9F) and U+3000 (E3 80 80). *)
Definition space3 (c1 c2 c3 : Ascii.ascii) : bool :=
  let n1 := code c1 in
  let n2 := code c2 in
  let n3 := code c3 in
  ((n1 =? 225) && (n2 =? 154) && (n3 =? 128)
   || (n1 =? 226) && (n2 =? 128)
      && ((128 <=? n3) && (n3 <=? 138)
          || (n3 =? 168) || (n3 =? 169) || (n3 =? 175))
   || (n1 =? 226) && (n2 =? 129) && (n3 =? 159)
   || (n1 =? 227) && (n2 =? 128) && (n3 =? 128))%N.

(** [s.lstrip()]. *)
Fixpoint lstrip (s : string) : string :=
  match s with
  | String c1 s1 =>
      if space1 c1 then lstrip s1 else
      match s1 with
      | String c2 s2 =>
          if space2 c1 c2 then lstrip s2 else
          match s2 with
          | String c3 s3 => if space3 c1 c2 c3 then lstrip s3 else s
          | EmptyString => s
          end
      | EmptyString => s
      end
  | EmptyString => s
  end.

(** [lstrip] on the byte-reversed string: the encodings are read
    backwards. *)
Fixpoint lstrip_rev (s : string) : string :=
  match s with
  | String c1 s1 =>
      if space1 c1 then lstrip_rev s1 else
      match s1 with
      | String c2 s2 =>
          if space2 c2 c1 then lstrip_rev s2 else
          match s2 with
          | String c3 s3 => if space3 c3 c2 c1 then lstrip_rev s3 else s
          | EmptyString => s
          end
      | EmptyString => s
      end
  | EmptyString => s
  end.

(** [s.rstrip()]. *)
Definition rstrip (s : string) : string :=
  String.rev (lstrip_rev (String.rev s)).

(** [s.strip()]. *)
Definition strip (s : string) : string := rstrip (lstrip s).

(** [s.replace(old, "")] for a non-empty [old]: every occurrence of [old],
    found left to right without overlap, is dropped.  [skip] counts the
    bytes of a match that are still to be dropped. *)
Fixpoint remove_from (old : string) (skip : nat) (s : string) : string :=
  match s with
  | EmptyString => EmptyString
  | String c s' =>
      match skip with
      | S k => remove_from old k s'
      | O =>
          if String.prefix old s
          then remove_from old (String.length old - 1) s'
          else String c (remove_from old 0 s')
      end
  end.

Definition remove_all (old s : string) : string :=
  if String.eqb old "" then s else remove_from old 0 s.

(** [s * n] for [n : int]; a count below one gives the empty string. *)
Fixpoint repeat_nat (s : string) (n : nat) : string :=
  match n with
  | O => ""
  | S k => s ++ repeat_nat s k
  end.

Definition repeat (s : string) (n : Z) : string := repeat_nat s (Z.to_nat n).

(** [sys.maxsize], the largest count that a sequence operation takes (a
    64-bit build). *)
Definition maxsize : Z := 2 ^ 63 - 1.

(** [s * n] as the interpreter evaluates it: the count is first converted
    to an index, and a count that does not fit raises [OverflowError].
    Running out of memory on a long result is outside the model. *)
Definition mul (s : string) (n : Z) : outcome string :=
  if (n <? - maxsize - 1)%Z || (maxsize <? n)%Z
  then Raises OverflowError
  else Returns (repeat s n).

(** Truth value of a string: [bool(s)]. *)
Definition truthy (s : string) : bool := negb (String.eqb s "").

End PyStr.

(** ** The parsed document (bs4 with the [html.parser] builder) *)

Module Soup.

(** A page element.  [NavigableString] is visible text (character data
    included); [Comment] stands for the string nodes that [get_text]
    leaves out (comments, declarations, the text of scripts and styles).
    A [Tag] carries its name, the value of its [class] attribute as the
    builder stores it (the list of class names, empty when the attribute
    is absent), its other attributes (single strings) and its contents.
    The truth value of a tag is always true, so [if tag] only tells a
    found tag from [None]. *)
#[warnings="-register-all"] Inductive node :=
| NavigableString (s : string)
| Comment (s : string)
| Tag (name : string) (class_ : list string) (attrs : gmap string string)
      (contents : list node).

(** [tag.get(key)]. *)
Definition get (key : string) (n : node) : option string :=
  match n with
  | Tag _ _ attrs _ => attrs !! key
  | _ => None
  end.

(** [tag.descendants], in document order; every descendant comes with its
    [next_siblings]. *)
Fixpoint descendants (n : node) : list (node * list node) :=
  match n with
  | Tag _ _ _ cs =>
      (fix walk (l : list node) : list (node * list node) :=
         match l with
         | [] => []
         | c :: rest => (c, rest) :: descendants c ++ walk rest
         end) cs
  | _ => []
  end.

(** Matching of the [class_] keyword against a multi-valued attribute:
    one of the values is the wanted one, or the values joined by a blank
    are. *)
Definition has_class (c : string) (cls : list string) : bool :=
  existsb (String.eqb c) cls || String.eqb (String.concat " " cls) c.

Definition matches (name : string) (class_ : option string) (n : node)
  : bool :=
  match n with
  | Tag nm cls _ _ =>
      String.eqb nm name
      && match class_ with
         | Some c => has_class c cls
         | None => true
         end
  | _ => false
  end.

(** [tag.find_all(name, class_=c)], each result with its next siblings. *)
Definition find_all_ctx (name : string) (class_ : option string) (n : node)
  : list (node * list node) :=
  filter (λ p, Is_true (matches name class_ p.1)) (descendants n).

Definition find_all (name : string) (class_ : option string) (n : node)
  : list node :=
  (find_all_ctx name class_ n).*1.

(** [tag.find(name, class_=c)]: the first result or [None]. *)
Definition find_ctx (name : string) (class_ : option string) (n : node)
  : option (node * list node) :=
  head (find_all_ctx name class_ n).

Definition find (name : string) (class_ : option string) (n : node)
  : option node :=
  fst <$> find_ctx name class_ n.

(** The visible strings below a tag, in document order. *)
Definition strings (n : node) : list string :=
  omap (λ p, match p.1 with
             | NavigableString s => Some s
             | _ => None
             end) (descendants n).

(** [tag.get_text(strip=True)]: every string is stripped, the empty ones
    are dropped, the rest is joined without separator. *)
Definition get_text_strip (n : node) : string :=
  String.concat ""
    (filter (λ s, Is_true (PyStr.truthy s)) (PyStr.strip <$> strings n)).

(** The [.string] attribute: a string node is its own string; a tag has
    one only through a single child.  The library follows a chain of only
    children by recursion; the depth at which the interpreter stops it
    ([RecursionError], on chains of about a thousand elements) is outside
    the model. *)
Fixpoint string_ (n : node) : option string :=
  match n with
  | NavigableString s => Some s
  | Comment s => Some s
  | Tag _ _ _ [c] => string_ c
  | Tag _ _ _ _ => None
  end.

End Soup.

(** ** The extractor: [scripts/오하아사_크롤링.py] *)

Module Crawler.
Import Soup.

Definition BASE_URL : string := "https://www.tv-asahi.co.jp/yajiplus/uranai/".

(** A dict literal: a later pair with the same key replaces the earlier
    one. *)
Definition dict_literal (items : list (string * string))
  : gmap string string :=
  foldl (λ d kv, <[kv.1 := kv.2]> d) ∅ items.

Definition zodiak_kr_jp_items : list (string * string) :=
  [ ("양자리", "おひつじ座"); ("황소자리", "おうし座"); ("쌍둥이자리", "ふたご座");
    ("게자리", "かに座"); ("사자자리", "しし座"); ("처녀자리", "おとめ座");
    ("천칭자리", "てんびん座"); ("전갈자리", "さそり座"); ("궁수자리", "いて座");
    ("염소자리", "やぎ座"); ("물병자리", "みずがめ座"); ("물고기자리", "うお座") ].

Definition zodiak_kr_jp : gmap string string :=
  dict_literal zodiak_kr_jp_items.

(** [{v: k for k, v in zodiak_kr_jp.items()}]: the items are visited in
    insertion order, which for a literal with distinct keys is the order
    of the literal. *)
Definition jp_to_kr : gmap string string :=
  foldl (λ d kv, <[kv.2 := kv.1]> d) ∅ zodiak_kr_jp_items.

Definition zodiak_eng : gmap string string :=
  dict_literal
    [ ("ohitsuji", "양자리"); ("ousi", "황소자리"); ("futago", "쌍둥이자리");
      ("kani", "게자리"); ("sisi", "사자자리"); ("otome", "처녀자리");
      ("tenbin", "천칭자리"); ("sasori", "전갈자리"); ("ite", "궁수자리");
      ("yagi", "염소자리"); ("mizugame", "물병자리"); ("uo", "물고기자리") ].

(** *** Helpers *)

(** [str(getattr(sib, "string", sib)).strip()]: a string node is its own
    text; a tag gives its [.string], and [str(None)] when it has none. *)
Definition sibling_text (sib : node) : string :=
  PyStr.strip (default "None" (string_ sib)).

(** The test of the loop body of [_text_after_label]. *)
Definition meaningful (s : string) : bool :=
  PyStr.truthy s
  && negb (String.eqb s ":")
  && negb (String.eqb s "：")
  && negb (String.eqb s "<br/>").

(** [s.replace("：", "").replace(":", "").strip()]. *)
Definition clean (s : string) : string :=
  PyStr.strip (PyStr.remove_all ":" (PyStr.remove_all "：" s)).

(** The loop over [span.next_siblings]. *)
Fixpoint first_meaningful (next_siblings : list node) : string :=
  match next_siblings with
  | [] => ""
  | sib :: rest =>
      let s := sibling_text sib in
      if meaningful s then clean s else first_meaningful rest
  end.

Definition _text_after_label (parent : node) (label_cls : string) : string :=
  match find_ctx "span" (Some label_cls) parent with
  | None => ""
  | Some (span, next_siblings) => first_meaningful next_siblings
  end.

Definition _count_star (score_box : node) (li_cls : string) : nat :=
  match find "li" (Some li_cls) score_box with
  | None => 0
  | Some target =>
      match find "p" (Some "lucky-box") target with
      | None => 0
      | Some lucky => length (find_all "img" None lucky)
      end
  end.

(** *** Rows *)

(** A ranking row: columns 순위, 별자리_일본어, 별자리_한국어. *)
Record rank_row := {
  r_rank : nat;
  r_jp_name : option string;
  r_kr_name : option string
}.

(** The columns a detail row brings to the output: 운세, 행운의 색,
    행운의 물건, 금전, 애정, 업무, 건강, 링크. *)
Record detail_cols := {
  read : string;
  lucky_color : string;
  key : string;
  money : nat;
  love : nat;
  work : nat;
  health : nat;
  link : string
}.

(** A detail row: the join column 별자리 and the other columns. *)
Record detail_row := {
  d_kr_name : option string;
  d_cols : detail_cols
}.

(** A row of the returned frame: 순위, 별자리 and the detail columns, which
    are all null ([None]) in a row without a partner.  pandas stores the
    scores as floats once a frame has such a row; the model keeps their
    integer values. *)
Record zodiak_row := {
  z_rank : nat;
  z_name : option string;
  z_cols : option detail_cols
}.

(** *** The two passes *)

Definition ranking_row (i : nat) (li : node) : rank_row :=
  let span := find "span" None li in
  let jp_name := get_text_strip <$> span in
  {| r_rank := i;
     r_jp_name := jp_name;
     r_kr_name := jp_name ≫= (jp_to_kr !!.) |}.

(** [enumerate(rank_box.find_all("li")[:12], start=1)]. *)
Definition ranking_rows (rank_box : node) : list rank_row :=
  imap (λ i li, ranking_row (S i) li) (take 12 (find_all "li" None rank_box)).

Definition detail_row_of (box : node) : detail_row :=
  let zid := get "id" box in
  let kr_name := zid ≫= (zodiak_eng !!.) in
  let read_area := find "div" (Some "read-area") box in
  let read :=
    match read_area with
    | Some ra =>
        match find "p" (Some "read") ra with
        | Some p => get_text_strip p
        | None => ""
        end
    | None => ""
    end in
  let lucky_color :=
    match read_area with
    | Some ra => _text_after_label ra "lucky-color-txt"
    | None => ""
    end in
  let key :=
    match read_area with
    | Some ra => _text_after_label ra "key-txt"
    | None => ""
    end in
  let score := find "div" (Some "number-one-box") box in
  let link :=
    match zid with
    | Some z => if PyStr.truthy z then BASE_URL ++ "#" ++ z else ""
    | None => ""
    end in
  let count li_cls :=
    match score with
    | Some sc => _count_star sc li_cls
    | None => 0
    end in
  {| d_kr_name := kr_name;
     d_cols := {| read := read;
                  lucky_color := lucky_color;
                  key := key;
                  money := count "lucky-money";
                  love := count "lucky-love";
                  work := count "lucky-work";
                  health := count "lucky-health";
                  link := link |} |}.

Definition detail_rows (detail : node) : list detail_row :=
  detail_row_of <$> take 12 (find_all "div" (Some "seiza-box") detail).

(** *** The pandas part *)

(** [pd.DataFrame(rows)[cols]]: a frame built from a list of dict rows has
    the columns of its rows, hence none at all when the list is empty, and
    selecting a missing column raises [KeyError]. *)
Definition select_columns {A B} (cols : A → B) (rows : list A)
  : outcome (list B) :=
  match rows with
  | [] => Raises KeyError
  | _ => Returns (cols <$> rows)
  end.

(** The detail rows that join with a left key.  pandas matches null keys
    with each other, so [None] joins with [None]. *)
Definition partners (kr_name : option string) (detail_df : list detail_row)
  : list detail_row :=
  filter (λ d, d_kr_name d = kr_name) detail_df.

(** The output rows of one left row: one per partner, in the order of the
    right frame, or a single row of nulls. *)
Definition join_row (l : nat * option string) (detail_df : list detail_row)
  : list zodiak_row :=
  match partners l.2 detail_df with
  | [] => [ {| z_rank := l.1; z_name := l.2; z_cols := None |} ]
  | ds => (λ d, {| z_rank := l.1; z_name := l.2;
                   z_cols := Some (d_cols d) |}) <$> ds
  end.

(** [pd.merge(left, detail_df, left_on="별자리_한국어", right_on="별자리",
    how="left")], followed by the overwrite of 별자리 with the left key,
    the drop of 별자리_한국어 and the column reordering.  The right key
    column is missing when [detail_df] has no row. *)
Definition merge_left (left : list (nat * option string))
    (detail_df : list detail_row) : outcome (list zodiak_row) :=
  match detail_df with
  | [] => Raises KeyError
  | _ => Returns (left ≫= λ l, join_row l detail_df)
  end.

(** The columns 순위 and 별자리_한국어 of a ranking row. *)
Definition rank_and_name (r : rank_row) : nat * option string :=
  (r_rank r, r_kr_name r).

(** *** [parse_zodiac]

    [soup] is the parsed document. *)
Definition parse_zodiac (soup : node) : outcome (list zodiak_row) :=
  match find "ul" (Some "rank-box") soup,
        find "div" (Some "seiza-area") soup with
  | Some rank_box, Some detail =>
      let ranking_df := ranking_rows rank_box in
      let detail_df := detail_rows detail in
      left ← select_columns rank_and_name ranking_df;
      merge_left left detail_df
  | _, _ => Raises ValueError
  end.

End Crawler.

(** ** The presentation helpers: [scripts/send_horoscope_kakao.py] *)

Module Kakao.

(** A binary floating-point value: not-a-number, an infinity, or the
    finite value [m * 2^e]. *)
Inductive pyfloat :=
| NaN
| Inf (negative : bool)
| Finite (m e : Z).

(** The Python values the helpers can be handed: a frame cell holds
    [None], a number or a string. *)
Inductive pyval :=
| PyNone
| PyBool (b : bool)
| PyInt (n : Z)
| PyFloat (x : pyfloat)
| PyStr (s : string).

(** [bool(v)]. *)
Definition truthy (v : pyval) : bool :=
  match v with
  | PyNone => false
  | PyBool b => b
  | PyInt n => negb (n =? 0)%Z
  | PyFloat (Finite m _) => negb (m =? 0)%Z
  | PyFloat _ => true
  | PyStr s => PyStr.truthy s
  end.

(** [isinstance(v, str)]. *)
Definition is_str (v : pyval) : bool :=
  match v with
  | PyStr _ => true
  | _ => false
  end.

(** [v.strip()]: only a string has the method. *)
Definition strip (v : pyval) : outcome pyval :=
  match v with
  | PyStr s => Returns (PyStr (PyStr.strip s))
  | _ => Raises AttributeError
  end.

(** [int(x)] on a finite float truncates towards zero. *)
Definition trunc (m e : Z) : Z :=
  if (0 <=? e)%Z then (m * 2 ^ e)%Z else (m ÷ 2 ^ (- e))%Z.

Section Collaborators.

(** [MyMemoryTranslator(source="japanese", target=t).translate(text)]:
    the remote service answers or the call raises. *)
Variable translate : string → string → outcome pyval.

(** The builtin [int] on a string: the parsed integer, or [ValueError]
    when the string is not an integer literal. *)
Variable int_of_str : string → outcome Z.

(** The warning printed by the handler is left out of the model. *)
Definition translate_text (text : pyval) (target_language : string)
  : outcome pyval :=
  if negb (truthy text) || negb (is_str text) then Returns text
  else
    match text with
    | PyStr s =>
        try_except
          (translated ← translate target_language s; strip translated)
          (λ e, Returns text)
    | _ => Returns text
    end.

(** The builtin [int]. *)
Definition int (v : pyval) : outcome Z :=
  match v with
  | PyNone => Raises TypeError
  | PyBool b => Returns (if b then 1 else 0)%Z
  | PyInt n => Returns n
  | PyFloat NaN => Raises ValueError
  | PyFloat (Inf _) => Raises OverflowError
  | PyFloat (Finite m e) => Returns (trunc m e)
  | PyStr s => int_of_str s
  end.

(** The handler covers the conversion only: the repetition of the last
    line is evaluated after it, and what it raises leaves the function. *)
Definition stars (n : pyval) : outcome string :=
  n ← try_except (int n) (λ e, Returns 0%Z);
  if (0 <? n)%Z then PyStr.mul "★" n else Returns "-".

End Collaborators.

(** A number below zero. *)
Definition negative (v : pyval) : Prop :=
  match v with
  | PyInt n => (n < 0)%Z
  | PyFloat (Finite m _) => (m < 0)%Z
  | PyFloat (Inf true) => True
  | _ => False
  end.

End Kakao.

(** ** The label rule in the words of the specification

    The first following sibling whose stripped text is non-empty and is
    neither a colon nor a line-break marker, with colons and surrounding
    white space removed.  It is compared with [Crawler._text_after_label]
    below. *)

Module Spec.
Import Soup.

(** The text of a node: a string node is its own text, an element has the
    text of the strings below it. *)
Definition node_text (n : node) : string :=
  match n with
  | NavigableString s => s
  | Comment s => s
  | Tag _ _ _ _ => String.concat "" (strings n)
  end.

(** A line-break marker: a [br] element, or its markup as text. *)
Definition line_break (n : node) : bool :=
  match n with
  | Tag nm _ _ _ => String.eqb nm "br"
  | NavigableString s => String.eqb (PyStr.strip s) "<br/>"
  | Comment s => String.eqb (PyStr.strip s) "<br/>"
  end.

Definition separator (n : node) : bool :=
  let s := PyStr.strip (node_text n) in
  String.eqb s "" || String.eqb s ":" || String.eqb s "：" || line_break n.

Fixpoint first_value (next_siblings : list node) : string :=
  match next_siblings with
  | [] => ""
  | sib :: rest =>
      if separator sib then first_value rest
      else Crawler.clean (PyStr.strip (node_text sib))
  end.

Definition text_after_label (parent : node) (label_cls : string) : string :=
  match find_ctx "span" (Some label_cls) parent with
  | None => ""
  | Some (span, next_siblings) => first_value next_siblings
  end.

(** A sibling that is a string node. *)
Definition is_string (n : node) : bool :=
  match n with
  | Tag _ _ _ _ => false
  | _ => true
  end.

End Spec.

(** ** Readings of the page used in the statements *)

Module Page.
Import Soup Crawler.

(** The number of icon images in the lucky display box of a category, when
    both the category item and its box are there. *)
Definition lucky_icons (score_box : node) (li_cls : string) : option nat :=
  target ← find "li" (Some li_cls) score_box;
  lucky ← find "p" (Some "lucky-box") target;
  Some (length (find_all "img" None lucky)).

(** The narrative paragraph of a detail sub-block. *)
Definition narrative (box : node) : option node :=
  find "div" (Some "read-area") box ≫= find "p" (Some "read").

(** The source-language label of a ranking item. *)
Definition label (li : node) : option string :=
  get_text_strip <$> find "span" None li.

(** The target-language names the two passes resolve. *)
Definition ranking_names (rank_box : node) : list (option string) :=
  r_kr_name <$> ranking_rows rank_box.

Definition detail_names (detail : node) : list (option string) :=
  d_kr_name <$> detail_rows detail.

(** The output rows of a run; a run that raises produces none. *)
Definition rows_of (soup : node) : list zodiak_row :=
  match parse_zodiac soup with
  | Returns rows => rows
  | Raises _ => []
  end.

(** Detail columns that are null, or all empty or zero. *)
Definition blank (cols : option detail_cols) : Prop :=
  match cols with
  | None => True
  | Some c =>
      read c = "" ∧ lucky_color c = "" ∧ key c = "" ∧ link c = ""
      ∧ money c = 0 ∧ love c = 0 ∧ work c = 0 ∧ health c = 0
  end.

End Page.

(** ** Fixture pages *)

Module Fixture.
Import Soup.

Definition el (name : string) (cls : list string) (contents : list node)
  : node :=
  Tag name cls ∅ contents.

Definition rank_li (label : string) : node :=
  el "li" [] [el "span" [] [NavigableString label]].

Definition score_li (li_cls : string) (icons : nat) : node :=
  el "li" [li_cls] [el "p" ["lucky-box"] (replicate icons (el "img" [] []))].

(** A detail sub-block with the given attributes, narrative, lucky colour
    and item, and icon counts for money, love, work and health. *)
Definition seiza_box (attrs : gmap string string)
    (narrative color item : string) (m l w h : nat) : node :=
  Tag "div" ["seiza-box"] attrs
    [ el "div" ["read-area"]
        [ el "p" ["read"] [NavigableString narrative];
          el "span" ["lucky-color-txt"] [NavigableString "ラッキーカラー"];
          NavigableString "：";
          NavigableString color;
          el "br" [] [];
          el "span" ["key-txt"] [NavigableString "幸運のカギ"];
          NavigableString "：";
          NavigableString item ];
      el "div" ["number-one-box"]
        [ el "ul" []
            [ score_li "lucky-money" m; score_li "lucky-love" l;
              score_li "lucky-work" w; score_li "lucky-health" h ] ] ].

Definition page (rank_items boxes : list node) : node :=
  el "[document]" []
    [ el "html" []
        [ el "body" []
            [ el "ul" ["rank-box"] rank_items;
              el "div" ["seiza-area"] boxes ] ] ].

Definition jp_labels : list string :=
  [ "おうし座"; "うお座"; "しし座"; "かに座"; "おひつじ座"; "いて座";
    "やぎ座"; "ふたご座"; "さそり座"; "おとめ座"; "みずがめ座"; "てんびん座" ].

Definition sign_ids : list string :=
  [ "ohitsuji"; "ousi"; "futago"; "kani"; "sisi"; "otome";
    "tenbin"; "sasori"; "ite"; "yagi"; "mizugame"; "uo" ].

Definition ousi_box : node :=
  seiza_box {["id" := "ousi"]} "test message" "黄色" "ハンカチ" 2 0 0 0.

(** The end-to-end scenario: twelve labels, one detail sub-block. *)
Definition scenario : node :=
  page (rank_li <$> jp_labels) [ousi_box].

(** Twelve ranking items and the twelve detail sub-blocks of the signs. *)
Definition full_page : node :=
  page (rank_li <$> jp_labels)
       ((λ z, seiza_box {["id" := z]} "text" "赤" "本" 1 2 3 4) <$> sign_ids).

(** A label followed by a colon, a line break and then the value. *)
Definition value_after_break : node :=
  el "div" ["read-area"]
    [ el "span" ["key-txt"] [NavigableString "幸運のカギ"];
      NavigableString "：";
      el "br" [] [];
      NavigableString "abc" ].

(** Both containers are there, the ranking list has no item. *)
Definition empty_ranking : node :=
  page [] [ousi_box].

(** Both containers are there, the detail container has no sub-block. *)
Definition empty_detail : node :=
  page (rank_li <$> jp_labels) [].

(** Two ranking items and seven detail sub-blocks of the same sign. *)
Definition repeated_sign : node :=
  page (rank_li <$> ["おうし座"; "おうし座"]) (replicate 7 ousi_box).

(** A label outside the dictionary and a detail sub-block without id. *)
Definition unknown_sign : node :=
  page [rank_li "ねこ座"] [seiza_box ∅ "hello" "青" "鍵" 0 0 0 0].

(** The scenario with an unknown label in second place. *)
Definition scenario_unknown : node :=
  page (rank_li <$> ["おうし座"; "ねこ座"; "しし座"]) [ousi_box].

(** A detail sub-block whose id is the empty string. *)
Definition empty_id_box : node :=
  seiza_box {["id" := ""]} "text" "青" "鍵" 0 0 0 0.

(** The twelve labels, and one detail sub-block whose id is empty. *)
Definition empty_id_page : node :=
  page (rank_li <$> jp_labels) [empty_id_box].

End Fixture.

(** ** The browser session: [fetch_html] and [get_zodiak_data] *)

Module Browser.

Definition URL : string := "https://www.tv-asahi.co.jp/yajiplus/uranai/#ousi".

(** What is asked of the browser, in the order of the calls. *)
Inductive event :=
| Launch (arguments : list string)
| Get (url : string)
| Sleep (seconds : Z)
| PageSource
| Quit.

(** The arguments [_build_driver] adds to the Chrome options. *)
Definition chrome_arguments (headless : bool) : list string :=
  (if headless then ["--headless=new"] else [])
  ++ ["--no-sandbox"; "--disable-dev-shm-usage"; "--disable-gpu";
      "--window-size=1280,800"].

Section Driver.

(** The answers of the browser: starting Chrome with the given arguments,
    loading a page, reading the page source and quitting each succeed or
    raise. *)
Variable launch : list string → outcome ().
Variable get : string → outcome ().
Variable page_source : outcome string.
Variable quit : outcome ().

(** [BeautifulSoup(html, "html.parser")]. *)
Variable parser : string → Soup.node.

(** The body of the [try] block. *)
Definition load (url : string) : list event * outcome string :=
  match get url with
  | Raises e => ([Get url], Raises e)
  | Returns _ => ([Get url; Sleep 2; PageSource], page_source)
  end.

(** [fetch_html]: the driver is built outside the [try]; the [finally]
    clause quits it, and an exception of [quit] replaces the outcome of the
    body. *)
Definition fetch_html (url : string) (headless : bool)
  : list event * outcome string :=
  let arguments := chrome_arguments headless in
  match launch arguments with
  | Raises e => ([Launch arguments], Raises e)
  | Returns _ =>
      let (events, result) := load url in
      (Launch arguments :: (events ++ [Quit]),
       match quit with
       | Raises e => Raises e
       | Returns _ => result
       end)
  end.

Definition get_zodiak_data (headless : bool)
  : list event * outcome (list Crawler.zodiak_row) :=
  let (events, result) := fetch_html URL headless in
  (events, html ← result; Crawler.parse_zodiac (parser html)).

End Driver.

End Browser.

(** ** The Kakao side of [scripts/send_horoscope_kakao.py] *)

Module Sender.
Import Kakao.

Definition TOKEN_URL : string := "https://kauth.kakao.com/oauth/token".
Definition MEMO_SEND_URL : string :=
  "https://kapi.kakao.com/v2/api/talk/memo/default/send".

(** Exception classes without a constructor of their own are given by their
    name. *)
Definition RuntimeError : exception := LibraryError "RuntimeError".
Definition HTTPError : exception := LibraryError "HTTPError".

(** A decoded JSON document. *)
#[warnings="-register-all"] Inductive json :=
| JNull
| JBool (b : bool)
| JInt (n : Z)
| JFloat (x : pyfloat)
| JStr (s : string)
| JList (l : list json)
| JDict (d : gmap string json).

(** [bool(v)] of a decoded document. *)
Definition json_truthy (v : json) : bool :=
  match v with
  | JNull => false
  | JBool b => b
  | JInt n => negb (n =? 0)%Z
  | JFloat x => truthy (PyFloat x)
  | JStr s => PyStr.truthy s
  | JList l => negb (bool_decide (length l = 0))
  | JDict d => negb (bool_decide (size d = 0))
  end.

(** [js.get(key)]: only a dict has the method. *)
Definition json_get (js : json) (key : string) : outcome json :=
  match js with
  | JDict d => Returns (default JNull (d !! key))
  | _ => Raises AttributeError
  end.

(** An HTTP response: its status, its text and what [res.json()] gives. *)
Record response := {
  res_status_code : Z;
  res_text : string;
  res_json : outcome json
}.

(** A form POST; the timeout of 15 seconds is not part of the model. *)
Record request := {
  url : string;
  headers : list (string * string);
  data : list (string * string)
}.

(** [res.raise_for_status()]. *)
Definition raise_for_status (res : response) : outcome () :=
  if (400 <=? res_status_code res)%Z && (res_status_code res <? 600)%Z
  then Raises HTTPError
  else Returns ().

(** *** [json.dumps(..., ensure_ascii=False)] on the template *)

Definition quote : string := String (Ascii.ascii_of_N 34) "".

Definition hex_digit (n : N) : string :=
  String (Ascii.ascii_of_N (if (n <? 10)%N then 48 + n else 87 + n)) "".

(** The escapes of [json.encoder.encode_basestring]. *)
Definition escape (c : Ascii.ascii) : string :=
  let n := Ascii.N_of_ascii c in
  if (n =? 34)%N then "\" ++ quote
  else if (n =? 92)%N then "\\"
  else if (n =? 10)%N then "\n"
  else if (n =? 13)%N then "\r"
  else if (n =? 9)%N then "\t"
  else if (n =? 8)%N then "\b"
  else if (n =? 12)%N then "\f"
  else if (n <? 32)%N then "\u00" ++ hex_digit (n / 16) ++ hex_digit (n mod 16)
  else String c "".

Fixpoint escape_all (s : string) : string :=
  match s with
  | EmptyString => ""
  | String c s' => escape c ++ escape_all s'
  end.

Definition encode_basestring (s : string) : string :=
  quote ++ escape_all s ++ quote.

Definition newline : string := String (Ascii.ascii_of_N 10) "".

Section Script.

(** The values of the environment variables, present and not empty once
    the assertion at the top of the module has passed. *)
Variables client_id refresh_token : string.

(** [requests.post]: the server answers or the call raises. *)
Variable post : request → outcome response.

(** The builtins [str] on a decoded document that is no string, [str] on a
    float (also its [repr]) and [int] on a string. *)
Variable json_str : json → string.
Variable float_str : pyfloat → string.
Variable int_of_str : string → outcome Z.

(** The translation service and the date of the day in Korean time,
    formatted as year-month-day. *)
Variable translate : string → string → outcome pyval.
Variable today : string.

(** The crawler, see [Browser.get_zodiak_data]. *)
Variable get_zodiak_data : bool → outcome (list Crawler.zodiak_row).

(** *** [refresh_access_token] *)

Definition token_request : request :=
  {| url := TOKEN_URL;
     headers := [];
     data := [ ("grant_type", "refresh_token");
               ("client_id", client_id);
               ("refresh_token", refresh_token) ] |}.

(** The requests sent, and the token or the exception. *)
Definition refresh_access_token : list request * outcome json :=
  ([token_request],
   res ← post token_request;
   _ ← raise_for_status res;
   js ← res_json res;
   access ← json_get js "access_token";
   if json_truthy access then Returns access else Raises RuntimeError).

(** *** [send_kakao_memo] *)

(** [f"Bearer {access_token}"]. *)
Definition bearer (access_token : json) : string :=
  "Bearer " ++ match access_token with
               | JStr s => s
               | v => json_str v
               end.

(** [web_url or "https://www.kakao.com"]. *)
Definition memo_link (web_url : pyval) : pyval :=
  if truthy web_url then web_url else PyStr "https://www.kakao.com".

Definition dumps (v : pyval) : string :=
  match v with
  | PyNone => "null"
  | PyBool true => "true"
  | PyBool false => "false"
  | PyInt n => pretty n
  | PyFloat NaN => "NaN"
  | PyFloat (Inf false) => "Infinity"
  | PyFloat (Inf true) => "-Infinity"
  | PyFloat x => float_str x
  | PyStr s => encode_basestring s
  end.

(** [json.dumps(template_obj, ensure_ascii=False)]. *)
Definition template_object (text : string) (web_url : pyval) : string :=
  "{" ++ encode_basestring "object_type" ++ ": " ++ encode_basestring "text"
  ++ ", " ++ encode_basestring "text" ++ ": " ++ encode_basestring text
  ++ ", " ++ encode_basestring "link" ++ ": {"
  ++ encode_basestring "web_url" ++ ": " ++ dumps (memo_link web_url)
  ++ "}}".

Definition memo_request (access_token : json) (text : string)
    (web_url : pyval) : request :=
  {| url := MEMO_SEND_URL;
     headers := [ ("Authorization", bearer access_token) ];
     data := [ ("template_object", template_object text web_url) ] |}.

(** The dict returned when the answer is no JSON. *)
Definition fallback (res : response) : json :=
  JDict (<["text" := JStr (res_text res)]>
           {["status_code" := JInt (res_status_code res)]}).

Definition send_kakao_memo (access_token : json) (text : string)
    (web_url : pyval) : list request * outcome json :=
  let req := memo_request access_token text web_url in
  ([req],
   res ← post req;
   try_except (res_json res) (λ e, Returns (fallback res))).

(** *** [build_message_from_row] *)

(** [row.get(key, default)] on a Series. *)
Definition row_get (row : gmap string pyval) (key : string) (dflt : pyval)
  : pyval :=
  default dflt (row !! key).

(** [x or y]. *)
Definition or_else (x y : pyval) : pyval := if truthy x then x else y.

(** A value inside an f-string: [str(v)]. *)
Definition format (v : pyval) : string :=
  match v with
  | PyNone => "None"
  | PyBool true => "True"
  | PyBool false => "False"
  | PyInt n => pretty n
  | PyFloat x => float_str x
  | PyStr s => s
  end.


(** [v.strip()] as a string. *)
Definition stripped (v : pyval) : outcome string :=
  match v with
  | PyStr s => Returns (PyStr.strip s)
  | _ => Raises AttributeError
  end.

Definition build_message_from_row (row : gmap string pyval)
  : outcome (string * pyval) :=
  let title := "[오늘의 운세] " ++ today ++ newline in
  let header :=
    "🏅 순위: " ++ format (row_get row "순위" (PyStr "?")) ++ "위 "
    ++ format (row_get row "별자리" (PyStr "")) ++ newline ++ newline in
  body ← stripped (or_else (row_get row "운세" PyNone) (PyStr ""));
  let lucky :=
    newline ++ newline ++ "🍀 행운의 색: "
    ++ format (row_get row "행운의 색" (PyStr "-")) ++ newline
    ++ "🍀 행운의 물건: "
    ++ format (row_get row "행운의 물건" (PyStr "-")) ++ newline in
  money ← stars int_of_str (row_get row "금전" (PyInt 0));
  love ← stars int_of_str (row_get row "애정" (PyInt 0));
  work ← stars int_of_str (row_get row "업무" (PyInt 0));
  health ← stars int_of_str (row_get row "건강" (PyInt 0));
  let scores :=
    newline ++ "🏷️ 운세 지수" ++ newline
    ++ "- 금전: " ++ money ++ newline
    ++ "- 애정: " ++ love ++ newline
    ++ "- 업무: " ++ work ++ newline
    ++ "- 건강: " ++ health ++ newline in
  let link := or_else (row_get row "링크" PyNone) PyNone in
  let text := title ++ header ++ body ++ lucky ++ scores in
  Returns (text, link).

(** *** [main] *)

(** A score of the frame is a count of list elements ([len] in
    [_count_star]), and no list of the interpreter is longer than
    [sys.maxsize]: [count] is the score as a Python integer, within that
    range. *)
Definition count (n : nat) : Z := Z.of_nat n `min` PyStr.maxsize.

(** The cells of a frame row as a Series.  The detail cells of a row
    without partner are not-a-number; the scores of a frame that has such a
    row are floats, those of a frame without are integers. *)
Definition score_cell (floats : bool) (n : nat) : pyval :=
  if floats then PyFloat (Finite (count n) 0) else PyInt (count n).

Definition has_null (df : list Crawler.zodiak_row) : bool :=
  existsb (λ r, negb (bool_decide (is_Some (Crawler.z_cols r)))) df.

Definition name_cell (name : option string) : pyval :=
  match name with
  | Some k => PyStr k
  | None => PyNone
  end.

Definition series (floats : bool) (r : Crawler.zodiak_row)
  : gmap string pyval :=
  let cell {A} (f : Crawler.detail_cols → A) (g : A → pyval) : pyval :=
    match Crawler.z_cols r with
    | Some cols => g (f cols)
    | None => PyFloat NaN
    end in
  list_to_map
    [ ("순위", PyInt (Z.of_nat (Crawler.z_rank r)));
      ("별자리", name_cell (Crawler.z_name r));
      ("운세", cell Crawler.read PyStr);
      ("행운의 색", cell Crawler.lucky_color PyStr);
      ("행운의 물건", cell Crawler.key PyStr);
      ("금전", cell Crawler.money (score_cell floats));
      ("애정", cell Crawler.love (score_cell floats));
      ("업무", cell Crawler.work (score_cell floats));
      ("건강", cell Crawler.health (score_cell floats));
      ("링크", cell Crawler.link PyStr) ].

(** [df.loc[df["별자리"] == target]]. *)
Definition select (target : string) (df : list Crawler.zodiak_row)
  : list Crawler.zodiak_row :=
  filter (λ r, Crawler.z_name r = Some target) df.

(** [pd.notna(v)]. *)
Definition notna (v : pyval) : bool :=
  match v with
  | PyNone => false
  | PyFloat NaN => false
  | _ => true
  end.

(** One turn of the translation loop. *)
Definition translate_cell (row : outcome (gmap string pyval)) (col : string)
  : outcome (gmap string pyval) :=
  row ← row;
  match row !! col with
  | Some v =>
      if notna v then
        v' ← translate_text translate v "korean";
        Returns (<[col := v']> row)
      else Returns row
  | None => Returns row
  end.

Definition translate_cells (row : gmap string pyval)
  : outcome (gmap string pyval) :=
  foldl translate_cell (Returns row) ["운세"; "행운의 색"; "행운의 물건"].

(** What [main] does up to the message: crawl, select the row of the
    target sign, translate, build the text and the link. *)
Definition prepare : outcome (string * pyval) :=
  df ← get_zodiak_data true;
  match select "황소자리" df with
  | [] => Raises RuntimeError
  | r :: _ =>
      row ← translate_cells (series (has_null df) r);
      build_message_from_row row
  end.

(** [main]: the requests sent, in order, and the response that is printed
    at the end, or the exception. *)
Definition main : list request * outcome json :=
  match prepare with
  | Raises e => ([], Raises e)
  | Returns (text, web_url) =>
      let (sent, access) := refresh_access_token in
      match access with
      | Raises e => (sent, Raises e)
      | Returns access =>
          let (sent', res) := send_kakao_memo access text web_url in
          ((sent ++ sent')%list, res)
      end
  end.

(** The exit status of the script: the handler at the bottom turns every
    exception of [main] into status 1. *)
Definition exit_status : Z :=
  match main.2 with
  | Returns _ => 0
  | Raises _ => 1
  end.

End Script.

End Sender.

(** * Properties *)

(** A decidable closed proposition, settled by evaluation. *)
Ltac decide_by_computation :=
  apply (bool_decide_unpack _); vm_compute; exact I.

(** ** The sign dictionaries *)

Section Dictionaries.
Import Crawler.

Lemma zodiak_kr_jp_items_spec k v :
  zodiak_kr_jp !! k = Some v ↔ (k, v) ∈ zodiak_kr_jp_items.
Proof.
  rewrite <- elem_of_map_to_list.
  assert (map_to_list zodiak_kr_jp ≡ₚ zodiak_kr_jp_items) as ->; [|done].
  decide_by_computation.
Qed.

Lemma jp_to_kr_items_spec v k :
  jp_to_kr !! v = Some k ↔ (k, v) ∈ zodiak_kr_jp_items.
Proof.
  rewrite <- elem_of_map_to_list.
  assert (map_to_list jp_to_kr ≡ₚ prod_swap <$> zodiak_kr_jp_items) as ->.
  { decide_by_computation. }
  rewrite list_elem_of_fmap. split.
  - intros [[k' v'] [[= -> ->] ?]]. done.
  - intros ?. by exists (k, v).
Qed.

(** C10: [zodiak_kr_jp] and the reversed [jp_to_kr] each have twelve
    distinct keys and twelve distinct values, and they are inverse to each
    other: [jp_to_kr] sends the value of every key of [zodiak_kr_jp] back
    to that key, and conversely. *)
Theorem sign_dictionaries_inverse :
  size zodiak_kr_jp = 12
  ∧ size jp_to_kr = 12
  ∧ NoDup (map_to_list zodiak_kr_jp).*2
  ∧ NoDup (map_to_list jp_to_kr).*2
  ∧ (∀ k v, zodiak_kr_jp !! k = Some v → jp_to_kr !! v = Some k)
  ∧ (∀ v k, jp_to_kr !! v = Some k → zodiak_kr_jp !! k = Some v).
Proof.
  split_and!.
  - by vm_compute.
  - by vm_compute.
  - decide_by_computation.
  - decide_by_computation.
  - intros k v. by rewrite zodiak_kr_jp_items_spec, jp_to_kr_items_spec.
  - intros v k. by rewrite zodiak_kr_jp_items_spec, jp_to_kr_items_spec.
Qed.

Lemma sign_dictionaries_inverse_witness :
  zodiak_kr_jp !! "황소자리" = Some "おうし座"
  ∧ jp_to_kr !! "おうし座" = Some "황소자리".
Proof.
  split; [reflexivity|].
  apply (proj1 (proj2 (proj2 (proj2 (proj2 sign_dictionaries_inverse))))).
  reflexivity.
Defined.

End Dictionaries.

(** ** The presentation helpers *)

Section Helpers.
Import Kakao.

Variable translate : string → string → outcome pyval.
Variable int_of_str : string → outcome Z.




(** The repetition on a count that fits an index. *)
Lemma mul_fits s n :
  (0 < n ≤ PyStr.maxsize)%Z → PyStr.mul s n = Returns (PyStr.repeat s n).
Proof.
  intros Hn. unfold PyStr.mul.
  destruct (Z.ltb_spec n (- PyStr.maxsize - 1)); [lia|].
  destruct (Z.ltb_spec PyStr.maxsize n); [lia|done].
Qed.

(** The repetition on a count beyond the largest index. *)
Lemma mul_overflow s n :
  (PyStr.maxsize < n)%Z → PyStr.mul s n = Raises OverflowError.
Proof.
  intros Hn. unfold PyStr.mul.
  destruct (Z.ltb_spec n (- PyStr.maxsize - 1)); [done|].
  destruct (Z.ltb_spec PyStr.maxsize n); [done|lia].
Qed.


(** C7: when the translation call raises, [translate_text] returns its
    argument unchanged; and whatever the call does, [translate_text]
    returns a value and raises nothing. *)
Theorem translate_text_recovers :
  (∀ text target,
      (∀ s, text = PyStr s → ∃ e, translate target s = Raises e) →
      translate_text translate text target = Returns text)
  ∧ (∀ text target, ∃ v, translate_text translate text target = Returns v).
Proof.
  split.
  - intros text target Hraise. unfold translate_text.
    destruct (negb (truthy text) || negb (is_str text)); [done|].
    destruct text as [| | | |s]; try done.
    destruct (Hraise s eq_refl) as [e ->]. done.
  - intros text target. unfold translate_text.
    destruct (negb (truthy text) || negb (is_str text)); [by eexists|].
    destruct text as [| | | |s]; try by eexists.
    destruct (translate target s) as [[| | | |t]|e]; by eexists.
Qed.

End Helpers.



Lemma translate_text_recovers_witness :
  Kakao.translate_text (λ _ _, Raises (LibraryError "RequestError"))
    (Kakao.PyStr "おはよう") "korean"
  = Returns (Kakao.PyStr "おはよう").
Proof.
  apply (proj1 (translate_text_recovers (λ _ _, Raises (LibraryError "RequestError")))).
  intros s _. exists (LibraryError "RequestError"). reflexivity.
Defined.

(** ** The label rule *)

Section LabelRule.
Import Soup Crawler.

Lemma text_after_label_absent parent label_cls :
  find "span" (Some label_cls) parent = None →
  _text_after_label parent label_cls = "".
Proof.
  unfold find, _text_after_label.
  by destruct (find_ctx "span" (Some label_cls) parent) as [[??]|].
Qed.

Lemma first_meaningful_none next_siblings :
  Forall (λ sib, meaningful (sibling_text sib) = false) next_siblings →
  first_meaningful next_siblings = "".
Proof. induction 1 as [|sib rest Hsib _ IH]; simpl; [done|]. by rewrite Hsib. Qed.

(** On siblings that are string nodes the code follows the wording of the
    specification. *)
Lemma first_meaningful_strings next_siblings :
  Forall (λ sib, Is_true (Spec.is_string sib)) next_siblings →
  first_meaningful next_siblings = Spec.first_value next_siblings.
Proof.
  induction 1 as [|sib rest Hsib _ IH]; simpl; [done|]. rewrite IH.
  unfold meaningful, Spec.separator, sibling_text, PyStr.truthy.
  destruct sib as [s|s|]; [| |done]; simpl;
    by repeat destruct (String.eqb _ _).
Qed.

Lemma text_after_label_strings parent label_cls :
  (∀ span next_siblings,
      find_ctx "span" (Some label_cls) parent = Some (span, next_siblings) →
      Forall (λ sib, Is_true (Spec.is_string sib)) next_siblings) →
  _text_after_label parent label_cls = Spec.text_after_label parent label_cls.
Proof.
  intros Hstr. unfold _text_after_label, Spec.text_after_label.
  destruct (find_ctx "span" (Some label_cls) parent) as [[span sibs]|]; [|done].
  eapply first_meaningful_strings, Hstr. done.
Qed.

(** A colon node followed by the value: the value comes back, cleaned. *)
Lemma first_meaningful_colon_value colon v rest :
  colon = ":" ∨ colon = "：" →
  meaningful (PyStr.strip v) = true →
  first_meaningful (NavigableString colon :: NavigableString v :: rest)
  = clean (PyStr.strip v).
Proof. intros [->| ->] Hv; simpl; unfold sibling_text; simpl; by rewrite Hv. Qed.

(** C2: on a label followed by a colon, a [br] element and the value
    ["abc"], the code returns the text ["None"] of the element without
    string, where the rule as specified skips the line break and returns
    ["abc"]. *)
Theorem text_after_label_line_break :
  _text_after_label Fixture.value_after_break "key-txt" = "None"
  ∧ Spec.text_after_label Fixture.value_after_break "key-txt" = "abc".
Proof. split; by vm_compute. Qed.

End LabelRule.

(** ** The detail pass *)

Section DetailPass.
Import Soup Crawler Page.

Lemma count_star_icons score_box li_cls :
  _count_star score_box li_cls = default 0 (lucky_icons score_box li_cls).
Proof.
  unfold _count_star, lucky_icons.
  destruct (find "li" (Some li_cls) score_box) as [target|]; simpl; [|done].
  by destruct (find "p" (Some "lucky-box") target).
Qed.

Lemma detail_row_read box :
  read (d_cols (detail_row_of box))
  = default "" (get_text_strip <$> narrative box).
Proof.
  unfold narrative. simpl.
  destruct (find "div" (Some "read-area") box) as [ra|]; simpl; [|done].
  by destruct (find "p" (Some "read") ra).
Qed.

Lemma detail_row_link box :
  link (d_cols (detail_row_of box))
  = match get "id" box with
    | Some z => if PyStr.truthy z then BASE_URL ++ "#" ++ z else ""
    | None => ""
    end.
Proof. reflexivity. Qed.

Lemma truthy_nonempty z : z ≠ "" → PyStr.truthy z = true.
Proof. unfold PyStr.truthy. by destruct z. Qed.

(** C8, amended: the link of a detail row is the base URL, ["#"] and the
    id of the sub-block when the id is present and not empty, and the
    empty string when the id is absent or empty; it is determined by the
    id attribute alone, whatever the sub-block contains. *)
Theorem link_from_sign_id (box : node) :
  (∀ z, get "id" box = Some z → z ≠ "" →
        link (d_cols (detail_row_of box)) = BASE_URL ++ "#" ++ z)
  ∧ (get "id" box = None ∨ get "id" box = Some "" →
     link (d_cols (detail_row_of box)) = "")
  ∧ (∀ box', get "id" box' = get "id" box →
             link (d_cols (detail_row_of box'))
             = link (d_cols (detail_row_of box))).
Proof.
  rewrite detail_row_link. split_and!.
  - intros z -> Hz. by rewrite truthy_nonempty.
  - by intros [-> | ->].
  - intros box' Hid. by rewrite detail_row_link, Hid.
Qed.

Lemma link_from_sign_id_witness :
  link (d_cols (detail_row_of Fixture.ousi_box)) = BASE_URL ++ "#" ++ "ousi".
Proof.
  apply (proj1 (link_from_sign_id Fixture.ousi_box) "ousi").
  - reflexivity.
  - discriminate.
Defined.

(** C8 as stated fails on a sub-block whose id is the empty string: the
    link is empty, not the base URL followed by ["#"]. *)
Lemma link_empty_id_counterexample :
  ¬ (∀ z, get "id" Fixture.empty_id_box = Some z →
          link (d_cols (detail_row_of Fixture.empty_id_box))
          = BASE_URL ++ "#" ++ z).
Proof. intros H. specialize (H "" eq_refl). vm_compute in H. discriminate. Qed.

End DetailPass.

(** ** The two passes and the join *)

Section Join.
Import Soup Crawler Page.

Implicit Types (l : nat * option string) (df : list detail_row).
Local Open Scope nat_scope.

Lemma ranking_rows_length rank_box :
  length (ranking_rows rank_box)
  = length (find_all "li" None rank_box) `min` 12.
Proof. unfold ranking_rows. rewrite length_imap, length_take. lia. Qed.

Lemma detail_rows_length detail :
  length (detail_rows detail)
  = length (find_all "div" (Some "seiza-box") detail) `min` 12.
Proof. unfold detail_rows. rewrite length_fmap, length_take. lia. Qed.

Lemma ranking_rows_lookup rank_box i :
  ranking_rows rank_box !! i
  = ranking_row (S i) <$> take 12 (find_all "li" None rank_box) !! i.
Proof. unfold ranking_rows. by rewrite list_lookup_imap. Qed.

Lemma ranking_rows_ranks rank_box :
  r_rank <$> ranking_rows rank_box = seq 1 (length (ranking_rows rank_box)).
Proof.
  unfold ranking_rows. rewrite length_imap, fmap_imap.
  rewrite <- fmap_S_seq, <- (imap_seq _ S 0). done.
Qed.

Lemma left_ranks rank_box :
  (rank_and_name <$> ranking_rows rank_box).*1
  = seq 1 (length (ranking_rows rank_box)).
Proof. rewrite <- list_fmap_compose. apply ranking_rows_ranks. Qed.

(** *** One left row *)

Lemma join_row_length l df :
  length (join_row l df) = length (partners l.2 df) `max` 1.
Proof.
  unfold join_row. destruct (partners l.2 df); simpl; [done|].
  rewrite length_fmap. lia.
Qed.

Lemma join_row_unmatched l df :
  partners l.2 df = [] →
  join_row l df = [ {| z_rank := l.1; z_name := l.2; z_cols := None |} ].
Proof. unfold join_row. by intros ->. Qed.

Lemma join_row_matched l df :
  partners l.2 df ≠ [] →
  join_row l df
  = (λ d, {| z_rank := l.1; z_name := l.2; z_cols := Some (d_cols d) |})
      <$> partners l.2 df.
Proof. unfold join_row. by destruct (partners l.2 df). Qed.

Lemma join_row_elem row l df :
  row ∈ join_row l df →
  z_rank row = l.1 ∧ z_name row = l.2
  ∧ (z_cols row = None ∧ partners l.2 df = []
     ∨ ∃ d, d ∈ df ∧ d_kr_name d = l.2 ∧ z_cols row = Some (d_cols d)).
Proof.
  destruct (decide (partners l.2 df = [])) as [Hnil|Hcons].
  - rewrite join_row_unmatched by done. intros ->%list_elem_of_singleton.
    auto.
  - rewrite join_row_matched by done.
    intros (d & -> & [Hd ?]%list_elem_of_filter)%list_elem_of_fmap.
    eauto 10.
Qed.

Lemma join_row_partner d l df :
  d ∈ df → d_kr_name d = l.2 →
  {| z_rank := l.1; z_name := l.2; z_cols := Some (d_cols d) |}
  ∈ join_row l df.
Proof.
  intros Hd Hname.
  assert (d ∈ partners l.2 df) as Hin by by apply list_elem_of_filter.
  rewrite join_row_matched by (by intros Hnil; rewrite Hnil in Hin; inv Hin).
  apply list_elem_of_fmap. by exists d.
Qed.

Lemma partners_none k df :
  k ∉ d_kr_name <$> df → partners k df = [].
Proof.
  intros Hk. apply elem_of_nil_inv. intros d [Hd ?]%list_elem_of_filter.
  apply Hk. rewrite <- Hd. by apply list_elem_of_fmap_2.
Qed.

Lemma partners_at_most_one k df :
  NoDup (d_kr_name <$> df) → length (partners k df) ≤ 1.
Proof.
  induction df as [|d df IH]; [simpl; lia|].
  rewrite fmap_cons, NoDup_cons. intros [Hd Hdf].
  unfold partners. rewrite filter_cons. case_decide as Hk; [|auto].
  fold (partners k df). rewrite partners_none; [done|]. by rewrite <- Hk.
Qed.

Lemma partners_some k df :
  k ∈ d_kr_name <$> df → partners k df ≠ [].
Proof.
  intros (d & -> & Hd)%list_elem_of_fmap Hnil.
  by eapply (filter_nil_not_elem_of _ _ d) in Hnil.
Qed.

Lemma join_row_single l df :
  NoDup (d_kr_name <$> df) → l.2 ∈ d_kr_name <$> df →
  ∃ d, d ∈ df ∧ d_kr_name d = l.2
       ∧ join_row l df
         = [ {| z_rank := l.1; z_name := l.2; z_cols := Some (d_cols d) |} ].
Proof.
  intros Hnodup Hin.
  pose proof (partners_at_most_one l.2 df Hnodup) as Hle.
  pose proof (partners_some l.2 df Hin) as Hne.
  rewrite join_row_matched by done.
  destruct (partners l.2 df) as [|d [|??]] eqn:Hp; [done| |simpl in Hle; lia].
  assert (d ∈ partners l.2 df) as [??]%list_elem_of_filter
    by (rewrite Hp; apply list_elem_of_here).
  by exists d.
Qed.

(** *** All left rows *)

Lemma joined_length_le (left : list (nat * option string)) df n :
  (∀ l, l ∈ left → length (join_row l df) ≤ n) →
  length (left ≫= λ l, join_row l df) ≤ length left * n.
Proof.
  induction left as [|l left IH]; intros Hn; [simpl; lia|].
  rewrite bind_cons, length_app. simpl.
  pose proof (Hn l (list_elem_of_here _ _)) as Hl.
  assert (length (left ≫= λ l, join_row l df) ≤ length left * n); [|lia].
  apply IH. intros l' ?. apply Hn. by apply list_elem_of_further.
Qed.

Lemma joined_length_ge (left : list (nat * option string)) df :
  length left ≤ length (left ≫= λ l, join_row l df).
Proof.
  induction left as [|l left IH]; [done|].
  rewrite bind_cons, length_app, join_row_length. simpl. lia.
Qed.

Lemma joined_length_bound (left : list (nat * option string)) df :
  df ≠ [] →
  length (left ≫= λ l, join_row l df) ≤ length left * length df.
Proof.
  intros Hdf. apply joined_length_le. intros l _. rewrite join_row_length.
  pose proof (length_filter (λ d, d_kr_name d = l.2) df).
  unfold partners. destruct df; [done|]. simpl in *. lia.
Qed.

Lemma joined_length_distinct (left : list (nat * option string)) df :
  NoDup (d_kr_name <$> df) →
  length (left ≫= λ l, join_row l df) = length left.
Proof.
  intros Hnodup. apply Nat.le_antisymm; [|apply joined_length_ge].
  transitivity (length left * 1); [|lia].
  apply joined_length_le. intros l _. rewrite join_row_length.
  pose proof (partners_at_most_one l.2 df Hnodup). lia.
Qed.

Lemma joined_all_matched (left : list (nat * option string)) df :
  NoDup (d_kr_name <$> df) →
  (∀ l, l ∈ left → l.2 ∈ d_kr_name <$> df) →
  z_rank <$> (left ≫= λ l, join_row l df) = left.*1
  ∧ ∀ row, row ∈ left ≫= (λ l, join_row l df) → is_Some (z_cols row).
Proof.
  intros Hnodup. induction left as [|l left IH]; intros Hin.
  - split; [done|]. intros row Hrow. inv Hrow.
  - destruct IH as [IHr IHc].
    { intros l' ?. apply Hin. by apply list_elem_of_further. }
    destruct (join_row_single l df Hnodup) as (d & _ & _ & Hl).
    { apply Hin, list_elem_of_here. }
    rewrite bind_cons, Hl. split.
    + by rewrite fmap_app, IHr.
    + intros row [->%list_elem_of_singleton|?]%elem_of_app; [by eexists|auto].
Qed.

(** *** [parse_zodiac] in terms of the passes and the join *)

Lemma parse_zodiac_found soup rank_box detail :
  find "ul" (Some "rank-box") soup = Some rank_box →
  find "div" (Some "seiza-area") soup = Some detail →
  parse_zodiac soup
  = if decide (ranking_rows rank_box = [] ∨ detail_rows detail = [])
    then Raises KeyError
    else Returns ((rank_and_name <$> ranking_rows rank_box)
                    ≫= λ l, join_row l (detail_rows detail)).
Proof.
  intros Hr Hd. unfold parse_zodiac. rewrite Hr, Hd.
  destruct (ranking_rows rank_box) as [|r rs]; [by rewrite decide_True by auto|].
  destruct (detail_rows detail) as [|d ds]; [by rewrite decide_True by auto|].
  rewrite decide_False by (by intros [|]). done.
Qed.

Lemma parse_zodiac_returns soup rows :
  parse_zodiac soup = Returns rows →
  ∃ rank_box detail,
    find "ul" (Some "rank-box") soup = Some rank_box
    ∧ find "div" (Some "seiza-area") soup = Some detail
    ∧ ranking_rows rank_box ≠ []
    ∧ detail_rows detail ≠ []
    ∧ rows = (rank_and_name <$> ranking_rows rank_box)
               ≫= λ l, join_row l (detail_rows detail).
Proof.
  intros Hrows.
  destruct (find "ul" (Some "rank-box") soup) as [rank_box|] eqn:Hr;
    [|by unfold parse_zodiac in Hrows; rewrite Hr in Hrows].
  destruct (find "div" (Some "seiza-area") soup) as [detail|] eqn:Hd;
    [|by unfold parse_zodiac in Hrows; rewrite Hr, Hd in Hrows].
  rewrite (parse_zodiac_found _ _ _ Hr Hd) in Hrows.
  case_decide as Hne; [done|]. injection Hrows as <-.
  exists rank_box, detail. split_and!; try done; intros ?; apply Hne; auto.
Qed.

(** The structural error is raised exactly when a container is missing. *)
Lemma structural_error_iff soup :
  parse_zodiac soup = Raises ValueError
  ↔ find "ul" (Some "rank-box") soup = None
    ∨ find "div" (Some "seiza-area") soup = None.
Proof.
  destruct (find "ul" (Some "rank-box") soup) as [rank_box|] eqn:Hr;
    [|by unfold parse_zodiac; rewrite Hr; split; auto].
  destruct (find "div" (Some "seiza-area") soup) as [detail|] eqn:Hd;
    [|by unfold parse_zodiac; rewrite Hr, Hd; split; auto].
  rewrite (parse_zodiac_found _ _ _ Hr Hd).
  case_decide; split; try done; by intros [|].
Qed.

End Join.

(** ** The extractor *)

Section Extractor.
Import Soup Crawler Page.
Local Open Scope nat_scope.

(** C1: on a page whose ranking list starts with the label ["おうし座"] and
    whose detail container has, among its first twelve sub-blocks, one
    with id ["ousi"], narrative ["test message"], two icon images in the
    lucky box of the money category and none in those of love, work and
    health, the extractor returns rows, one of which has rank 1, sign
    ["황소자리"], the link made of the base URL and ["#ousi"], the
    narrative and the scores 2, 0, 0, 0. *)
Theorem scenario_row soup rank_box detail li lis i box p score :
  find "ul" (Some "rank-box") soup = Some rank_box →
  find "div" (Some "seiza-area") soup = Some detail →
  find_all "li" None rank_box = li :: lis →
  label li = Some "おうし座" →
  take 12 (find_all "div" (Some "seiza-box") detail) !! i = Some box →
  get "id" box = Some "ousi" →
  narrative box = Some p →
  get_text_strip p = "test message" →
  find "div" (Some "number-one-box") box = Some score →
  lucky_icons score "lucky-money" = Some 2 →
  lucky_icons score "lucky-love" = Some 0 →
  lucky_icons score "lucky-work" = Some 0 →
  lucky_icons score "lucky-health" = Some 0 →
  ∃ rows row cols,
    parse_zodiac soup = Returns rows
    ∧ row ∈ rows
    ∧ z_rank row = 1
    ∧ z_name row = Some "황소자리"
    ∧ z_cols row = Some cols
    ∧ link cols = BASE_URL ++ "#ousi"
    ∧ read cols = "test message"
    ∧ money cols = 2 ∧ love cols = 0 ∧ work cols = 0 ∧ health cols = 0.
Proof.
  intros Hr Hd Hlis Hlabel Hbox Hid Hp Hread Hscore Hmoney Hlove Hwork Hhealth.
  assert (ranking_rows rank_box !! 0 = Some (ranking_row 1 li)) as Hrow.
  { rewrite ranking_rows_lookup, Hlis. done. }
  assert (detail_rows detail !! i = Some (detail_row_of box)) as Hdet.
  { unfold detail_rows. by rewrite list_lookup_fmap, Hbox. }
  assert (r_kr_name (ranking_row 1 li) = Some "황소자리") as Hkr.
  { unfold label in Hlabel. simpl. by rewrite Hlabel. }
  assert (d_kr_name (detail_row_of box) = Some "황소자리") as Hdk.
  { simpl. by rewrite Hid. }
  rewrite (parse_zodiac_found _ _ _ Hr Hd).
  rewrite decide_False; cycle 1.
  { intros [Hnil|Hnil]; by rewrite Hnil in *. }
  eexists _, _, (d_cols (detail_row_of box)). split; [done|].
  split.
  { apply list_elem_of_bind. exists (rank_and_name (ranking_row 1 li)). split.
    - apply join_row_partner.
      + by eapply list_elem_of_lookup_2.
      + by rewrite Hdk.
    - apply list_elem_of_fmap_2. by eapply list_elem_of_lookup_2. }
  split; [done|]. split; [done|]. split; [done|].
  rewrite detail_row_link, Hid, detail_row_read, Hp. simpl.
  rewrite Hread, Hscore, !count_star_icons, Hmoney, Hlove, Hwork, Hhealth.
  done.
Qed.

Lemma scenario_row_witness :
  ∃ rows row cols,
    parse_zodiac Fixture.scenario = Returns rows
    ∧ row ∈ rows
    ∧ z_rank row = 1
    ∧ z_name row = Some "황소자리"
    ∧ z_cols row = Some cols
    ∧ link cols = BASE_URL ++ "#ousi"
    ∧ read cols = "test message"
    ∧ money cols = 2 ∧ love cols = 0 ∧ work cols = 0 ∧ health cols = 0.
Proof.
  eapply (scenario_row Fixture.scenario _ _ _ _ 0 Fixture.ousi_box);
    vm_compute; reflexivity.
Defined.

(** C3: on a page with exactly twelve ranking items and twelve detail
    sub-blocks whose resolved names match one to one (the names of the
    detail sub-blocks are pairwise distinct and are, up to order, those of
    the ranking items), the extractor returns exactly twelve rows, with
    ranks 1 to 12 in order, none of which has null detail columns. *)
Theorem full_match_rows soup rank_box detail :
  find "ul" (Some "rank-box") soup = Some rank_box →
  find "div" (Some "seiza-area") soup = Some detail →
  length (find_all "li" None rank_box) = 12 →
  length (find_all "div" (Some "seiza-box") detail) = 12 →
  NoDup (detail_names detail) →
  ranking_names rank_box ≡ₚ detail_names detail →
  ∃ rows,
    parse_zodiac soup = Returns rows
    ∧ length rows = 12
    ∧ z_rank <$> rows = seq 1 12
    ∧ ∀ row, row ∈ rows → is_Some (z_cols row).
Proof.
  intros Hr Hd Hlis Hboxes Hnodup Hperm.
  assert (length (ranking_rows rank_box) = 12) as Hlen
    by (rewrite ranking_rows_length; lia).
  assert (length (detail_rows detail) = 12) as Hlen'
    by (rewrite detail_rows_length; lia).
  rewrite (parse_zodiac_found _ _ _ Hr Hd).
  rewrite decide_False; cycle 1.
  { intros [Hnil|Hnil]; by rewrite Hnil in *. }
  eexists. split; [done|].
  destruct (joined_all_matched (rank_and_name <$> ranking_rows rank_box)
              (detail_rows detail) Hnodup) as [Hranks Hcols].
  { intros l (r & -> & Hin)%list_elem_of_fmap. simpl.
    fold (detail_names detail). rewrite <- Hperm.
    by apply list_elem_of_fmap_2. }
  split_and!; [|by rewrite Hranks, left_ranks, Hlen|done].
  by rewrite joined_length_distinct, length_fmap.
Qed.

Lemma full_match_rows_witness :
  ∃ rows,
    parse_zodiac Fixture.full_page = Returns rows
    ∧ length rows = 12
    ∧ z_rank <$> rows = seq 1 12
    ∧ ∀ row, row ∈ rows → is_Some (z_cols row).
Proof.
  eapply (full_match_rows Fixture.full_page).
  - vm_compute; reflexivity.
  - vm_compute; reflexivity.
  - vm_compute; reflexivity.
  - vm_compute; reflexivity.
  - decide_by_computation.
  - decide_by_computation.
Defined.

(** C4: with both containers present and a ranking list without item (or a
    detail container without sub-block) the extractor raises [KeyError],
    although nothing but optional nested elements is missing. *)
Theorem empty_pass_key_error :
  is_Some (find "ul" (Some "rank-box") Fixture.empty_ranking)
  ∧ is_Some (find "div" (Some "seiza-area") Fixture.empty_ranking)
  ∧ parse_zodiac Fixture.empty_ranking = Raises KeyError
  ∧ is_Some (find "ul" (Some "rank-box") Fixture.empty_detail)
  ∧ is_Some (find "div" (Some "seiza-area") Fixture.empty_detail)
  ∧ parse_zodiac Fixture.empty_detail = Raises KeyError.
Proof.
  split_and!; try (vm_compute; reflexivity);
    eexists; vm_compute; reflexivity.
Qed.

Lemma joined_row_origin rank_box df row :
  row ∈ (rank_and_name <$> ranking_rows rank_box) ≫= (λ l, join_row l df) →
  ∃ i li,
    find_all "li" None rank_box !! i = Some li ∧ i < 12
    ∧ row ∈ join_row (S i, r_kr_name (ranking_row (S i) li)) df.
Proof.
  intros (l & Hrow & (r & -> & Hr)%list_elem_of_fmap)%list_elem_of_bind.
  apply list_elem_of_lookup in Hr as [i Hi].
  rewrite ranking_rows_lookup in Hi.
  destruct (take 12 (find_all "li" None rank_box) !! i) as [li|] eqn:Hli;
    [|done].
  injection Hi as <-. apply lookup_take_Some in Hli as [Hli ?].
  by exists i, li.
Qed.

(** C5, amended: when the extractor returns rows, each pass has processed
    the first twelve entries of its container at most, every returned rank
    lies between 1 and 12, and there are at most 144 rows; there are at
    most 12 rows when the names resolved for the processed detail
    sub-blocks are pairwise distinct. *)
Theorem rows_bounded soup rows :
  parse_zodiac soup = Returns rows →
  ∃ rank_box detail,
    find "ul" (Some "rank-box") soup = Some rank_box
    ∧ find "div" (Some "seiza-area") soup = Some detail
    ∧ ranking_rows rank_box
      = imap (λ i, ranking_row (S i)) (take 12 (find_all "li" None rank_box))
    ∧ detail_rows detail
      = detail_row_of <$> take 12 (find_all "div" (Some "seiza-box") detail)
    ∧ length (ranking_rows rank_box) ≤ 12
    ∧ length (detail_rows detail) ≤ 12
    ∧ (∀ row, row ∈ rows → 1 ≤ z_rank row ≤ 12)
    ∧ length rows ≤ 144
    ∧ (NoDup (detail_names detail) → length rows ≤ 12).
Proof.
  intros (rank_box & detail & Hr & Hd & _ & Hne & ->)%parse_zodiac_returns.
  exists rank_box, detail.
  pose proof (ranking_rows_length rank_box).
  pose proof (detail_rows_length detail).
  split_and!; try done; try lia.
  - intros row (i & li & _ & ? & Hrow%join_row_elem)%joined_row_origin.
    destruct Hrow as (-> & _). simpl. lia.
  - etransitivity; [by apply joined_length_bound|].
    rewrite length_fmap. nia.
  - intros Hnodup. rewrite joined_length_distinct, length_fmap by done. lia.
Qed.

Lemma rows_bounded_witness :
  ∃ rank_box detail,
    find "ul" (Some "rank-box") Fixture.repeated_sign = Some rank_box
    ∧ find "div" (Some "seiza-area") Fixture.repeated_sign = Some detail
    ∧ length (rows_of Fixture.repeated_sign) ≤ 144.
Proof.
  destruct (rows_bounded Fixture.repeated_sign
              (rows_of Fixture.repeated_sign))
    as (rank_box & detail & Hr & Hd & _ & _ & _ & _ & _ & Hlen & _).
  - vm_compute; reflexivity.
  - by exists rank_box, detail.
Defined.

(** C5 as stated fails on a page with two ranking items and seven detail
    sub-blocks of the same sign: no structural error is raised and
    fourteen rows come back. *)
Lemma rows_bounded_counterexample :
  ¬ (parse_zodiac Fixture.repeated_sign ≠ Raises ValueError →
     length (rows_of Fixture.repeated_sign) ≤ 12).
Proof.
  intros H. assert (length (rows_of Fixture.repeated_sign) = 14) as Hlen
    by (vm_compute; reflexivity).
  rewrite Hlen in H. assert (14 ≤ 12); [|lia].
  apply H. vm_compute. discriminate.
Qed.

(** C6, amended: when the extractor returns rows, a ranking item among the
    first twelve whose label does not resolve has an output row with its
    rank and a null sign name (the source-language name is not a column of
    the output); when no processed detail sub-block has an unresolved
    name, every row of that rank has null detail columns. *)
Theorem unresolved_entry_row soup rows rank_box i li :
  parse_zodiac soup = Returns rows →
  find "ul" (Some "rank-box") soup = Some rank_box →
  find_all "li" None rank_box !! i = Some li →
  i < 12 →
  label li ≫= (jp_to_kr !!.) = None →
  (∃ row, row ∈ rows ∧ z_rank row = S i ∧ z_name row = None)
  ∧ ∀ detail,
      find "div" (Some "seiza-area") soup = Some detail →
      None ∉ detail_names detail →
      ∀ row, row ∈ rows → z_rank row = S i →
             z_name row = None ∧ z_cols row = None.
Proof.
  intros (rank_box' & detail & Hr' & Hd & _ & _ & ->)%parse_zodiac_returns
    Hr Hli Hi Hnone.
  assert (rank_box' = rank_box) as -> by congruence.
  assert (r_kr_name (ranking_row (S i) li) = None) as Hkr by done.
  split.
  - assert (rank_and_name (ranking_row (S i) li)
            ∈ rank_and_name <$> ranking_rows rank_box) as Hin.
    { apply list_elem_of_fmap_2. apply (list_elem_of_lookup_2 _ i).
      by rewrite ranking_rows_lookup, lookup_take_lt, Hli. }
    set (l := rank_and_name (ranking_row (S i) li)) in *.
    pose proof (join_row_length l (detail_rows detail)) as Hlen.
    destruct (join_row l (detail_rows detail)) as [|row rest] eqn:Hjoin;
      [simpl in Hlen; lia|].
    assert (row ∈ join_row l (detail_rows detail)) as Hrow
      by (rewrite Hjoin; apply list_elem_of_here).
    exists row. split.
    + apply list_elem_of_bind. by exists l.
    + apply join_row_elem in Hrow as (-> & -> & _). done.
  - intros detail' Hd' Hnames row Hrow Hrank.
    assert (detail' = detail) as -> by congruence.
    apply joined_row_origin in Hrow as (j & lj & Hlj & _ & Hrow).
    apply join_row_elem in Hrow as (Hrank' & Hname & Hcols).
    cbn [fst snd] in Hrank', Hname, Hcols.
    assert (j = i) as -> by lia.
    assert (lj = li) as -> by congruence.
    rewrite Hkr in Hname, Hcols. split; [done|].
    destruct Hcols as [[? _]|(d & Hd'' & Hdk & _)]; [done|].
    destruct Hnames. rewrite <- Hdk. by apply list_elem_of_fmap_2.
Qed.

Lemma unresolved_entry_row_witness :
  ∃ row, row ∈ rows_of Fixture.scenario_unknown
         ∧ z_rank row = 2 ∧ z_name row = None.
Proof.
  refine (proj1 (unresolved_entry_row Fixture.scenario_unknown
                   (rows_of Fixture.scenario_unknown) _ 1 _ _ _ _ _ _));
    vm_compute; try reflexivity; lia.
Defined.

(** C6 as stated fails on a page whose only ranking item has a label
    outside the dictionary and whose only detail sub-block has no id: the
    two null names join, and the single row of rank 1 carries the
    narrative of that sub-block. *)
Lemma unresolved_entry_counterexample :
  ¬ (∀ rank_box li,
        find "ul" (Some "rank-box") Fixture.unknown_sign = Some rank_box →
        find_all "li" None rank_box !! 0 = Some li →
        label li ≫= (jp_to_kr !!.) = None →
        ∃ row, row ∈ rows_of Fixture.unknown_sign
               ∧ z_rank row = 1 ∧ blank (z_cols row)).
Proof.
  intros H.
  edestruct H as (row & Hrow & _ & Hblank); [vm_compute; reflexivity..|].
  assert (∃ cols, rows_of Fixture.unknown_sign
                  = [ {| z_rank := 1; z_name := None; z_cols := Some cols |} ]
                  ∧ read cols = "hello") as (cols & Hrows & Hread)
    by (eexists; split; vm_compute; reflexivity).
  rewrite Hrows in Hrow. apply list_elem_of_singleton in Hrow as ->.
  destruct Hblank as [Hblank _]. rewrite Hread in Hblank. discriminate.
Qed.

End Extractor.

(** ** The outcomes and the rows of the extractor *)

Section Rows.
Import Soup Crawler Page.
Local Open Scope nat_scope.

Lemma ranking_rows_nil rank_box :
  ranking_rows rank_box = [] ↔ find_all "li" None rank_box = [].
Proof.
  split.
  - intros Hnil. apply nil_length_inv.
    pose proof (ranking_rows_length rank_box) as Hlen.
    rewrite Hnil in Hlen. simpl in Hlen. lia.
  - intros Hnil. apply nil_length_inv.
    rewrite ranking_rows_length, Hnil. done.
Qed.

Lemma detail_rows_nil detail :
  detail_rows detail = [] ↔ find_all "div" (Some "seiza-box") detail = [].
Proof.
  split.
  - intros Hnil. apply nil_length_inv.
    pose proof (detail_rows_length detail) as Hlen.
    rewrite Hnil in Hlen. simpl in Hlen. lia.
  - intros Hnil. apply nil_length_inv.
    rewrite detail_rows_length, Hnil. done.
Qed.

Lemma join_row_inhabited l df : ∃ row, row ∈ join_row l df.
Proof.
  pose proof (join_row_length l df) as Hlen.
  destruct (join_row l df) as [|row rest]; [simpl in Hlen; lia|].
  exists row. by left.
Qed.

(** The outcomes of the extractor on the tree of a page, as far as the
    containers and the two passes decide them.  [ValueError] is raised
    exactly when a container is missing.  With both containers there, a
    detail container without sub-block gives [KeyError]; a [KeyError]
    means that one of the two passes found no entry; and rows are
    returned only when each pass found an entry, and then at least one
    row is returned. *)
Theorem parse_zodiac_outcome soup :
  (parse_zodiac soup = Raises ValueError
   ↔ find "ul" (Some "rank-box") soup = None
     ∨ find "div" (Some "seiza-area") soup = None)
  ∧ (∀ rank_box detail,
        find "ul" (Some "rank-box") soup = Some rank_box →
        find "div" (Some "seiza-area") soup = Some detail →
        find_all "div" (Some "seiza-box") detail = [] →
        parse_zodiac soup = Raises KeyError)
  ∧ (parse_zodiac soup = Raises KeyError →
     ∃ rank_box detail,
       find "ul" (Some "rank-box") soup = Some rank_box
       ∧ find "div" (Some "seiza-area") soup = Some detail
       ∧ (find_all "li" None rank_box = []
          ∨ find_all "div" (Some "seiza-box") detail = []))
  ∧ (∀ rows,
        parse_zodiac soup = Returns rows →
        rows ≠ []
        ∧ ∃ rank_box detail,
            find "ul" (Some "rank-box") soup = Some rank_box
            ∧ find "div" (Some "seiza-area") soup = Some detail
            ∧ find_all "li" None rank_box ≠ []
            ∧ find_all "div" (Some "seiza-box") detail ≠ []).
Proof.
  split; [apply structural_error_iff|]. split_and!.
  - intros rank_box detail Hr Hd Hnil.
    rewrite (parse_zodiac_found _ _ _ Hr Hd).
    apply decide_True. right. by apply detail_rows_nil.
  - intros Hraise.
    destruct (find "ul" (Some "rank-box") soup) as [rank_box|] eqn:Hr;
      [|by unfold parse_zodiac in Hraise; rewrite Hr in Hraise].
    destruct (find "div" (Some "seiza-area") soup) as [detail|] eqn:Hd;
      [|by unfold parse_zodiac in Hraise; rewrite Hr, Hd in Hraise].
    rewrite (parse_zodiac_found _ _ _ Hr Hd) in Hraise.
    case_decide as Hempty; [|done].
    rewrite ranking_rows_nil, detail_rows_nil in Hempty.
    by exists rank_box, detail.
  - intros rows
      (rank_box & detail & Hr & Hd & Hrank & Hdetail & ->)%parse_zodiac_returns.
    split.
    + destruct (ranking_rows rank_box) as [|r rs]; [done|].
      rewrite fmap_cons, bind_cons.
      destruct (join_row_inhabited (rank_and_name r) (detail_rows detail))
        as [row Hrow].
      intros Hnil. apply app_eq_nil in Hnil as [Hnil _].
      rewrite Hnil in Hrow. inv Hrow.
    + exists rank_box, detail. split_and!; [done|done| |].
      * by rewrite <- ranking_rows_nil.
      * by rewrite <- detail_rows_nil.
Qed.

Lemma constant_sorted (a : nat) (l : list nat) :
  (∀ x, x ∈ l → x = a) → StronglySorted le l.
Proof.
  induction l as [|x l IH]; intros Hl; constructor.
  - apply IH. intros y ?. apply Hl. by right.
  - apply Forall_forall. intros y Hy.
    rewrite (Hl x), (Hl y); [done|by right|by left].
Qed.

Lemma join_row_rank row l df :
  row ∈ join_row l df → z_rank row = l.1.
Proof. by intros (? & _)%join_row_elem. Qed.

Lemma joined_ranks (left : list (nat * option string)) df start :
  left.*1 = seq start (length left) →
  StronglySorted le (z_rank <$> (left ≫= λ l, join_row l df))
  ∧ ∀ k, k ∈ z_rank <$> (left ≫= λ l, join_row l df)
         ↔ start ≤ k < start + length left.
Proof.
  revert start. induction left as [|l left IH]; intros start Hseq.
  { split; [constructor|]. intros k. split; [by inversion 1|simpl; lia]. }
  injection Hseq as Hl Hleft.
  destruct (IH _ Hleft) as [IHs IHk].
  assert (∀ k, k ∈ z_rank <$> join_row l df ↔ k = start) as Hblock.
  { intros k. rewrite list_elem_of_fmap. split.
    - intros (row & -> & ->%join_row_rank). done.
    - intros ->. destruct (join_row_inhabited l df) as [row Hrow].
      exists row. split; [|done]. by rewrite (join_row_rank _ _ _ Hrow). }
  rewrite bind_cons, fmap_app. split.
  - apply StronglySorted_app. split_and!; [|by eapply constant_sorted, Hblock|done].
    intros x1 x2 ->%Hblock ?%IHk. lia.
  - intros k. rewrite elem_of_app, Hblock, IHk. simpl. lia.
Qed.

(** The returned rows follow the ranking: their ranks never decrease, and
    the ranks that occur are exactly 1 up to the number of ranking items,
    twelve at most, so every processed ranking item has a row. *)
Theorem rows_follow_ranking soup rows :
  parse_zodiac soup = Returns rows →
  ∃ rank_box,
    find "ul" (Some "rank-box") soup = Some rank_box
    ∧ StronglySorted le (z_rank <$> rows)
    ∧ ∀ k, k ∈ z_rank <$> rows
           ↔ 1 ≤ k ≤ length (find_all "li" None rank_box) `min` 12.
Proof.
  intros (rank_box & detail & Hr & _ & _ & _ & ->)%parse_zodiac_returns.
  exists rank_box. split; [done|].
  destruct (joined_ranks (rank_and_name <$> ranking_rows rank_box)
              (detail_rows detail) 1) as [Hsorted Hk].
  { by rewrite left_ranks, length_fmap. }
  split; [done|]. intros k. rewrite Hk, length_fmap, ranking_rows_length. lia.
Qed.

Lemma rows_follow_ranking_witness :
  StronglySorted le (z_rank <$> rows_of Fixture.repeated_sign)
  ∧ (2 ∈ z_rank <$> rows_of Fixture.repeated_sign).
Proof.
  destruct (rows_follow_ranking Fixture.repeated_sign
              (rows_of Fixture.repeated_sign))
    as (rank_box & Hr & Hsorted & Hk); [vm_compute; reflexivity|].
  split; [done|]. apply Hk.
  assert (find "ul" (Some "rank-box") Fixture.repeated_sign
          = Some (Fixture.el "ul" ["rank-box"]
                    (Fixture.rank_li <$> ["おうし座"; "おうし座"]))) as Hr'
    by (vm_compute; reflexivity).
  rewrite Hr' in Hr. injection Hr as <-. vm_compute. lia.
Defined.

Lemma row_origin soup rows row :
  parse_zodiac soup = Returns rows →
  row ∈ rows →
  ∃ rank_box detail i li,
    find "ul" (Some "rank-box") soup = Some rank_box
    ∧ find "div" (Some "seiza-area") soup = Some detail
    ∧ find_all "li" None rank_box !! i = Some li
    ∧ i < 12
    ∧ z_rank row = S i
    ∧ z_name row = label li ≫= (jp_to_kr !!.)
    ∧ match z_cols row with
      | Some cols =>
          ∃ j box,
            find_all "div" (Some "seiza-box") detail !! j = Some box
            ∧ j < 12
            ∧ get "id" box ≫= (zodiak_eng !!.) = z_name row
            ∧ cols = d_cols (detail_row_of box)
      | None =>
          ∀ j box,
            find_all "div" (Some "seiza-box") detail !! j = Some box →
            j < 12 →
            get "id" box ≫= (zodiak_eng !!.) ≠ z_name row
      end.
Proof.
  intros (rank_box & detail & Hr & Hd & _ & _ & ->)%parse_zodiac_returns Hrow.
  apply joined_row_origin in Hrow as (i & li & Hli & Hi & Hrow).
  apply join_row_elem in Hrow as (Hrank & Hname & Hcols).
  exists rank_box, detail, i, li. split_and!; try done.
  cbn [fst snd] in Hcols, Hname.
  destruct Hcols as [[-> Hnil]|(d & Hin & Hdk & ->)].
  - intros j box Hbox Hj Hsame.
    assert (detail_row_of box ∈ partners (z_name row) (detail_rows detail))
      as Hp; [|rewrite Hname, Hnil in Hp; by inversion Hp].
    apply list_elem_of_filter. split; [done|].
    apply list_elem_of_fmap_2, elem_of_take. eauto.
  - apply list_elem_of_fmap in Hin as (box & -> & (j & Hbox & Hj)%elem_of_take).
    exists j, box. split_and!; try done. by rewrite Hname.
Qed.

(** Every returned row pairs one of the first twelve ranking items with the
    detail sub-blocks of the same resolved name: its rank is the position
    of the item, its sign is the name resolved from the label of the item,
    its detail columns, when not null, are those of one of the first twelve
    detail sub-blocks whose id resolves to that name, and they are null
    only when no such sub-block exists. *)
Theorem row_provenance soup rows row :
  parse_zodiac soup = Returns rows →
  row ∈ rows →
  ∃ rank_box detail i li,
    find "ul" (Some "rank-box") soup = Some rank_box
    ∧ find "div" (Some "seiza-area") soup = Some detail
    ∧ find_all "li" None rank_box !! i = Some li
    ∧ i < 12
    ∧ z_rank row = S i
    ∧ z_name row = label li ≫= (jp_to_kr !!.)
    ∧ match z_cols row with
      | Some cols =>
          ∃ j box,
            find_all "div" (Some "seiza-box") detail !! j = Some box
            ∧ j < 12
            ∧ get "id" box ≫= (zodiak_eng !!.) = z_name row
            ∧ cols = d_cols (detail_row_of box)
      | None =>
          ∀ j box,
            find_all "div" (Some "seiza-box") detail !! j = Some box →
            j < 12 →
            get "id" box ≫= (zodiak_eng !!.) ≠ z_name row
      end.
Proof. apply row_origin. Qed.

Lemma row_provenance_witness :
  ∃ row rank_box detail i li,
    row ∈ rows_of Fixture.scenario
    ∧ find "ul" (Some "rank-box") Fixture.scenario = Some rank_box
    ∧ find "div" (Some "seiza-area") Fixture.scenario = Some detail
    ∧ find_all "li" None rank_box !! i = Some li
    ∧ z_rank row = S i
    ∧ z_name row = label li ≫= (jp_to_kr !!.).
Proof.
  assert (∃ row rest, rows_of Fixture.scenario = row :: rest)
    as (row & rest & Hrows) by (eexists _, _; vm_compute; reflexivity).
  destruct (row_provenance Fixture.scenario (rows_of Fixture.scenario) row)
    as (rank_box & detail & i & li & ? & ? & ? & _ & ? & ? & _).
  - vm_compute; reflexivity.
  - rewrite Hrows. by left.
  - exists row, rank_box, detail, i, li. split_and!; try done.
    rewrite Hrows. by left.
Defined.

(** *** The sign tables and the links *)

Lemma zodiak_eng_inverse :
  ∃ inverse : gmap string string,
    ∀ zid k, zodiak_eng !! zid = Some k → inverse !! k = Some zid.
Proof.
  set (inverse := foldl (λ d kv, <[kv.2 := kv.1]> d)
                    (∅ : gmap string string) (map_to_list zodiak_eng)).
  exists inverse. intros zid k Hk%elem_of_map_to_list.
  assert (Forall (λ kv, inverse !! kv.2 = Some kv.1) (map_to_list zodiak_eng))
    as Hall by decide_by_computation.
  by apply (proj1 (Forall_forall _ _) Hall (zid, k)).
Qed.

Lemma zodiak_eng_range k :
  (∃ zid, zodiak_eng !! zid = Some k) ↔ is_Some (zodiak_kr_jp !! k).
Proof.
  assert ((map_to_list zodiak_eng).*2 ≡ₚ (map_to_list zodiak_kr_jp).*1)
    as Hperm by decide_by_computation.
  transitivity (k ∈ (map_to_list zodiak_eng).*2).
  { rewrite list_elem_of_fmap. split.
    - intros [zid Hk]. exists (zid, k). by rewrite elem_of_map_to_list.
    - intros ([zid k'] & -> & Hk%elem_of_map_to_list). by exists zid. }
  rewrite Hperm, list_elem_of_fmap. split.
  - intros ([k' jp] & -> & Hk%elem_of_map_to_list). by exists jp.
  - intros [jp Hk]. exists (k, jp). by rewrite elem_of_map_to_list.
Qed.

Lemma jp_to_kr_range k :
  (∃ jp, jp_to_kr !! jp = Some k) ↔ is_Some (zodiak_kr_jp !! k).
Proof.
  split.
  - intros [jp Hjp%jp_to_kr_items_spec%zodiak_kr_jp_items_spec]. by exists jp.
  - intros [jp Hjp%zodiak_kr_jp_items_spec%jp_to_kr_items_spec]. by exists jp.
Qed.

Lemma zodiak_eng_inj zid zid' k :
  zodiak_eng !! zid = Some k → zodiak_eng !! zid' = Some k → zid = zid'.
Proof.
  destruct zodiak_eng_inverse as [inverse Hinv].
  intros H1%Hinv H2%Hinv. congruence.
Qed.

(** The three sign tables cover the same twelve names: a name is the value
    of some id in [zodiak_eng] exactly when it is a key of [zodiak_kr_jp],
    and exactly when it is the value of some label in [jp_to_kr]; distinct
    ids have distinct names, and the empty id has none. *)
Theorem sign_tables_agree :
  (∀ k, (∃ zid, zodiak_eng !! zid = Some k) ↔ is_Some (zodiak_kr_jp !! k))
  ∧ (∀ k, (∃ jp, jp_to_kr !! jp = Some k) ↔ is_Some (zodiak_kr_jp !! k))
  ∧ (∀ zid zid' k,
        zodiak_eng !! zid = Some k → zodiak_eng !! zid' = Some k → zid = zid')
  ∧ zodiak_eng !! "" = None.
Proof.
  split_and!.
  - apply zodiak_eng_range.
  - apply jp_to_kr_range.
  - apply zodiak_eng_inj.
  - by vm_compute.
Qed.

Lemma sign_tables_agree_witness :
  is_Some (zodiak_kr_jp !! "황소자리").
Proof.
  apply (proj1 (proj1 sign_tables_agree "황소자리")).
  exists "ousi". reflexivity.
Defined.

(** A returned row with a resolved sign carries one of the twelve names; if
    its detail columns are not null, its link is the base URL followed by
    ["#"] and the one id that [zodiak_eng] maps to that name, so the link
    of a sign is the same on every page. *)
Theorem row_link_by_sign soup rows row k :
  parse_zodiac soup = Returns rows →
  row ∈ rows →
  z_name row = Some k →
  is_Some (zodiak_kr_jp !! k)
  ∧ ∀ cols,
      z_cols row = Some cols →
      ∃ zid,
        zodiak_eng !! zid = Some k
        ∧ (∀ zid', zodiak_eng !! zid' = Some k → zid' = zid)
        ∧ link cols = (BASE_URL ++ "#" ++ zid)%string.
Proof.
  intros Hrows Hrow Hk.
  destruct (row_origin _ _ _ Hrows Hrow)
    as (rank_box & detail & i & li & _ & _ & _ & _ & _ & Hname & Hcols).
  split.
  - apply jp_to_kr_range. rewrite Hk in Hname.
    destruct (label li) as [jp|]; [|done]. by exists jp.
  - intros cols Hsome. rewrite Hsome in Hcols.
    destruct Hcols as (j & box & _ & _ & Hid & ->).
    rewrite Hk in Hid. destruct (get "id" box) as [zid|] eqn:Hzid; [|done].
    simpl in Hid. exists zid. split_and!; [done| |].
    + intros zid' ?. by apply (zodiak_eng_inj zid' zid k).
    + rewrite detail_row_link, Hzid, truthy_nonempty; [done|].
      by intros ->.
Qed.

Lemma row_link_by_sign_witness :
  ∃ row, row ∈ rows_of Fixture.scenario
         ∧ is_Some (zodiak_kr_jp !! "황소자리").
Proof.
  assert (∃ row rest, rows_of Fixture.scenario = row :: rest
                      ∧ z_name row = Some "황소자리")
    as (row & rest & Hrows & Hname)
    by (eexists _, _; split; vm_compute; reflexivity).
  exists row. split; [rewrite Hrows; by left|].
  apply (row_link_by_sign Fixture.scenario (rows_of Fixture.scenario) row).
  - vm_compute; reflexivity.
  - rewrite Hrows. by left.
  - exact Hname.
Defined.

Lemma parse_zodiac_outcome_witness :
  parse_zodiac (Fixture.page [Fixture.rank_li "ねこ座"] []) = Raises KeyError.
Proof.
  apply (proj1 (proj2 (parse_zodiac_outcome _))
           (Fixture.el "ul" ["rank-box"] [Fixture.rank_li "ねこ座"])
           (Fixture.el "div" ["seiza-area"] []));
    vm_compute; reflexivity.
Defined.

End Rows.

(** ** Strings: stripping and colon removal *)

Section Strippers.
Local Open Scope nat_scope.

Lemma string_app_assoc (a b c : string) :
  ((a ++ b) ++ c = a ++ (b ++ c))%string.
Proof.
  induction a as [|x a IH]; [done|].
  change (String x ((a ++ b) ++ c) = String x (a ++ (b ++ c)))%string.
  by rewrite IH.
Qed.

Lemma string_app_nil_l (a : string) : ("" ++ a)%string = a.
Proof. reflexivity. Qed.

Lemma string_app_cons x (a b : string) :
  (String x a ++ b)%string = String x (a ++ b)%string.
Proof. reflexivity. Qed.

Lemma string_app_nil_r (a : string) : (a ++ "")%string = a.
Proof.
  induction a as [|x a IH]; [done|].
  change (String x (a ++ "") = String x a)%string. by rewrite IH.
Qed.

Lemma string_app_length (a b : string) :
  String.length (a ++ b) = String.length a + String.length b.
Proof.
  induction a as [|x a IH]; [done|].
  change (S (String.length (a ++ b)) = S (String.length a + String.length b)).
  by rewrite IH.
Qed.

Lemma rev_app_acc (s acc : string) :
  String.rev_app s acc = (String.rev s ++ acc)%string.
Proof.
  revert acc. induction s as [|x s IH]; intros acc; [done|].
  unfold String.rev. simpl. rewrite (IH (String x acc)), (IH (String x "")).
  by rewrite string_app_assoc.
Qed.

Lemma string_rev_app (a b : string) :
  String.rev (a ++ b) = (String.rev b ++ String.rev a)%string.
Proof.
  induction a as [|x a IH].
  - by rewrite string_app_nil_r.
  - change (String.rev_app (a ++ b) (String x "")
            = String.rev b ++ String.rev_app a (String x ""))%string.
    rewrite !rev_app_acc, IH. by rewrite string_app_assoc.
Qed.

Lemma string_rev_rev (s : string) : String.rev (String.rev s) = s.
Proof.
  induction s as [|x s IH]; [done|].
  change (String.rev (String.rev_app s (String x "")) = String x s).
  by rewrite rev_app_acc, string_rev_app, IH.
Qed.

(** A function of the shape of [lstrip]: it drops leading groups of one, two
    or three bytes as long as the tests accept them. *)
Section Shape.
Variables (p1 : Ascii.ascii → bool) (p2 : Ascii.ascii → Ascii.ascii → bool)
          (p3 : Ascii.ascii → Ascii.ascii → Ascii.ascii → bool)
          (f : string → string).
Hypothesis f_nil : f "" = "".
Hypothesis f_cons : ∀ c1 s1,
  f (String c1 s1)
  = if p1 c1 then f s1 else
    match s1 with
    | String c2 s2 =>
        if p2 c1 c2 then f s2 else
        match s2 with
        | String c3 s3 => if p3 c1 c2 c3 then f s3 else String c1 s1
        | EmptyString => String c1 s1
        end
    | EmptyString => String c1 s1
    end.

Lemma shape_suffix s : ∃ p, s = (p ++ f s)%string.
Proof.
  remember (String.length s) as n eqn:Hn. revert s Hn.
  induction n as [n IH] using lt_wf_ind. intros s ->.
  destruct s as [|c1 s1]; [exists ""; by rewrite f_nil|].
  rewrite f_cons. destruct (p1 c1).
  { destruct (IH _ (Nat.lt_succ_diag_r _) s1 eq_refl) as [p Hp].
    exists (String c1 p). by rewrite Hp at 1. }
  destruct s1 as [|c2 s2]; [by exists ""|].
  destruct (p2 c1 c2).
  { destruct (IH (String.length s2) ltac:(simpl; lia) s2 eq_refl) as [p Hp].
    exists (String c1 (String c2 p)). by rewrite Hp at 1. }
  destruct s2 as [|c3 s3]; [by exists ""|].
  destruct (p3 c1 c2 c3); [|by exists ""].
  destruct (IH (String.length s3) ltac:(simpl; lia) s3 eq_refl) as [p Hp].
  exists (String c1 (String c2 (String c3 p))). by rewrite Hp at 1.
Qed.

Lemma shape_length s : String.length (f s) ≤ String.length s.
Proof.
  destruct (shape_suffix s) as [p Hp]. rewrite Hp at 2.
  rewrite string_app_length. lia.
Qed.

Lemma shape_idem s : f (f s) = f s.
Proof.
  remember (String.length s) as n eqn:Hn. revert s Hn.
  induction n as [n IH] using lt_wf_ind. intros s ->.
  destruct s as [|c1 s1]; [by rewrite !f_nil|].
  rewrite (f_cons c1 s1). destruct (p1 c1) eqn:H1.
  { by apply (IH (String.length s1)); [simpl; lia|]. }
  destruct s1 as [|c2 s2]; [by rewrite f_cons, H1|].
  destruct (p2 c1 c2) eqn:H2.
  { by apply (IH (String.length s2)); [simpl; lia|]. }
  destruct s2 as [|c3 s3]; [by rewrite f_cons, H1, H2|].
  destruct (p3 c1 c2 c3) eqn:H3.
  { by apply (IH (String.length s3)); [simpl; lia|]. }
  by rewrite f_cons, H1, H2, H3.
Qed.

Lemma shape_fixed_prefix s u w :
  f s = s → s = (u ++ w)%string → f u = u.
Proof.
  intros Hfix ->.
  destruct u as [|c1 u1]; [done|].
  change (f (String c1 (u1 ++ w)) = String c1 (u1 ++ w))%string in Hfix.
  rewrite f_cons in Hfix. rewrite f_cons. revert Hfix.
  destruct (p1 c1).
  { intros Hfix. pose proof (shape_length (u1 ++ w)) as Hlen.
    rewrite Hfix in Hlen. simpl in Hlen. lia. }
  destruct u1 as [|c2 u2]; [done|].
  change (String c2 u2 ++ w)%string with (String c2 (u2 ++ w))%string.
  cbv beta iota. destruct (p2 c1 c2).
  { intros Hfix. pose proof (shape_length (u2 ++ w)) as Hlen.
    rewrite Hfix in Hlen. simpl in Hlen. lia. }
  destruct u2 as [|c3 u3]; [done|].
  change (String c3 u3 ++ w)%string with (String c3 (u3 ++ w))%string.
  cbv beta iota. destruct (p3 c1 c2 c3); [|done].
  intros Hfix. pose proof (shape_length (u3 ++ w)) as Hlen.
  rewrite Hfix in Hlen. simpl in Hlen. lia.
Qed.

End Shape.

Lemma lstrip_cons c1 s1 :
  PyStr.lstrip (String c1 s1)
  = if PyStr.space1 c1 then PyStr.lstrip s1 else
    match s1 with
    | String c2 s2 =>
        if PyStr.space2 c1 c2 then PyStr.lstrip s2 else
        match s2 with
        | String c3 s3 =>
            if PyStr.space3 c1 c2 c3 then PyStr.lstrip s3 else String c1 s1
        | EmptyString => String c1 s1
        end
    | EmptyString => String c1 s1
    end.
Proof. by destruct s1 as [|? [|??]]. Qed.

Lemma lstrip_rev_cons c1 s1 :
  PyStr.lstrip_rev (String c1 s1)
  = if PyStr.space1 c1 then PyStr.lstrip_rev s1 else
    match s1 with
    | String c2 s2 =>
        if PyStr.space2 c2 c1 then PyStr.lstrip_rev s2 else
        match s2 with
        | String c3 s3 =>
            if PyStr.space3 c3 c2 c1 then PyStr.lstrip_rev s3
            else String c1 s1
        | EmptyString => String c1 s1
        end
    | EmptyString => String c1 s1
    end.
Proof. by destruct s1 as [|? [|??]]. Qed.

(** What [strip] returns lies inside its argument. *)
Lemma strip_inside s : ∃ p q, s = (p ++ PyStr.strip s ++ q)%string.
Proof.
  destruct (shape_suffix _ _ _ _ eq_refl lstrip_cons s) as [p Hp].
  destruct (shape_suffix _ _ _ _ eq_refl lstrip_rev_cons
              (String.rev (PyStr.lstrip s))) as [q Hq].
  exists p, (String.rev q). rewrite Hp at 1. f_equal.
  unfold PyStr.strip, PyStr.rstrip.
  rewrite <- string_rev_app, <- Hq. by rewrite string_rev_rev.
Qed.

(** Stripping twice is stripping once: a stripped string has no white space
    at either end. *)
Lemma strip_idem s : PyStr.strip (PyStr.strip s) = PyStr.strip s.
Proof.
  set (t := PyStr.lstrip s).
  set (u := PyStr.lstrip_rev (String.rev t)).
  assert (PyStr.strip s = String.rev u) as Hr by done.
  destruct (shape_suffix _ _ _ _ eq_refl lstrip_rev_cons (String.rev t))
    as [q Hq]. fold u in Hq.
  assert (t = (String.rev u ++ String.rev q)%string) as Ht.
  { by rewrite <- string_rev_app, <- Hq, string_rev_rev. }
  rewrite Hr. unfold PyStr.strip, PyStr.rstrip.
  rewrite (shape_fixed_prefix _ _ _ _ eq_refl lstrip_cons t _ _ 
             (shape_idem _ _ _ _ eq_refl lstrip_cons s) Ht).
  rewrite string_rev_rev. unfold u.
  by rewrite (shape_idem _ _ _ _ eq_refl lstrip_rev_cons).
Qed.

Lemma remove_colon_free s a b :
  PyStr.remove_all ":" s ≠ (a ++ ":" ++ b)%string.
Proof.
  change (PyStr.remove_all ":" s) with (PyStr.remove_from ":" 0 s).
  revert a. induction s as [|c s IH]; intros a.
  - by destruct a.
  - cbn [PyStr.remove_from String.prefix String.length Nat.sub].
    destruct (Ascii.ascii_dec _ c) as [<-|Hc].
    + assert (String.prefix "" s = true) as -> by by destruct s.
      apply IH.
    + destruct a as [|x a].
      * rewrite string_app_nil_l, string_app_cons. intros [= Hcolon _].
        by destruct Hc.
      * rewrite string_app_cons. intros [= _ Hrest]. by eapply IH.
Qed.

End Strippers.

(** ** The labelled fields *)

Section LabelledFields.
Import Soup Crawler.

Lemma clean_stripped s : PyStr.strip (clean s) = clean s.
Proof. apply strip_idem. Qed.

Lemma clean_colon_free s a b : clean s ≠ a ++ ":" ++ b.
Proof.
  unfold clean. intros Heq.
  destruct (strip_inside (PyStr.remove_all ":" (PyStr.remove_all "：" s)))
    as (p & q & Hin).
  rewrite Heq in Hin.
  apply (remove_colon_free (PyStr.remove_all "：" s) (p ++ a) (b ++ q)).
  by rewrite Hin, !string_app_assoc.
Qed.

Lemma text_after_label_tidy parent label_cls :
  PyStr.strip (_text_after_label parent label_cls)
  = _text_after_label parent label_cls
  ∧ ∀ a b, _text_after_label parent label_cls ≠ a ++ ":" ++ b.
Proof.
  unfold _text_after_label.
  destruct (find_ctx "span" (Some label_cls) parent) as [[span sibs]|];
    [|split; [done|by intros [|??] ?]].
  induction sibs as [|sib rest IH]; simpl;
    [split; [done|by intros [|??] ?]|].
  destruct (meaningful (sibling_text sib)); [|done].
  split; [apply clean_stripped|apply clean_colon_free].
Qed.

(** A labelled field, whatever the page, has no white space at either end
    ([strip] leaves it unchanged) and contains no ASCII colon. *)
Theorem text_after_label_clean parent label_cls :
  PyStr.strip (_text_after_label parent label_cls)
  = _text_after_label parent label_cls
  ∧ ∀ a b, _text_after_label parent label_cls ≠ a ++ ":" ++ b.
Proof. apply text_after_label_tidy. Qed.

Lemma text_after_label_clean_witness :
  _text_after_label Fixture.value_after_break "key-txt" ≠ "No" ++ ":" ++ "ne".
Proof.
  apply (proj2 (text_after_label_clean Fixture.value_after_break "key-txt")).
Defined.

(** In every returned row with detail columns, the lucky colour and the
    lucky item have no white space at either end and contain no ASCII
    colon. *)
Theorem row_fields_clean soup rows row cols :
  parse_zodiac soup = Returns rows →
  row ∈ rows →
  z_cols row = Some cols →
  PyStr.strip (lucky_color cols) = lucky_color cols
  ∧ PyStr.strip (key cols) = key cols
  ∧ (∀ a b, lucky_color cols ≠ a ++ ":" ++ b)
  ∧ (∀ a b, key cols ≠ a ++ ":" ++ b).
Proof.
  intros Hrows Hrow Hcols.
  destruct (row_origin _ _ _ Hrows Hrow)
    as (? & ? & ? & ? & _ & _ & _ & _ & _ & _ & Hbox).
  rewrite Hcols in Hbox. destruct Hbox as (j & box & _ & _ & _ & ->).
  simpl. destruct (find "div" (Some "read-area") box) as [ra|].
  - destruct (text_after_label_tidy ra "lucky-color-txt") as [??].
    destruct (text_after_label_tidy ra "key-txt") as [??]. done.
  - split_and!; try done; by intros [|??] ?.
Qed.

Lemma row_fields_clean_witness :
  ∃ row cols,
    row ∈ Page.rows_of Fixture.scenario
    ∧ z_cols row = Some cols
    ∧ PyStr.strip (lucky_color cols) = lucky_color cols.
Proof.
  assert (∃ row rest cols, Page.rows_of Fixture.scenario = row :: rest
                           ∧ z_cols row = Some cols)
    as (row & rest & cols & Hrows & Hcols)
    by (eexists _, _, _; split; vm_compute; reflexivity).
  exists row, cols. split; [rewrite Hrows; by left|]. split; [done|].
  apply (row_fields_clean Fixture.scenario (Page.rows_of Fixture.scenario) row).
  - vm_compute; reflexivity.
  - rewrite Hrows. by left.
  - done.
Defined.

End LabelledFields.

(** ** More on the presentation helpers *)

Section HelpersMore.
Import Kakao.

Variable translate : string → string → outcome pyval.
Variable int_of_str : string → outcome Z.

(** [translate_text] hands back an input that is empty or no string without
    consulting the translator; it returns a translation that is a string
    stripped, and discards an answer that is no string. *)
Theorem translate_text_cases :
  (∀ translate' text target,
      truthy text && is_str text = false →
      translate_text translate' text target = Returns text)
  ∧ (∀ s t target,
        s ≠ "" →
        translate target s = Returns (PyStr t) →
        translate_text translate (PyStr s) target
        = Returns (PyStr (PyStr.strip t)))
  ∧ (∀ s v target,
        translate target s = Returns v →
        is_str v = false →
        translate_text translate (PyStr s) target = Returns (PyStr s)).
Proof.
  split_and!.
  - intros translate' text target Hskip. unfold translate_text.
    by destruct (truthy text), (is_str text).
  - intros s t target Hs Ht. unfold translate_text. simpl.
    rewrite truthy_nonempty by done. simpl. by rewrite Ht.
  - intros s v target Hv Hstr. unfold translate_text. simpl.
    destruct (PyStr.truthy s); simpl; [|done]. rewrite Hv.
    by destruct v.
Qed.

(** The two ways out of [stars]: the count is beyond the largest index and
    the repetition raises, or a non-empty string is returned. *)
Lemma stars_cases v :
  (∃ n, int int_of_str v = Returns n ∧ (PyStr.maxsize < n)%Z
        ∧ stars int_of_str v = Raises OverflowError)
  ∨ ((∀ n, int int_of_str v = Returns n → (n ≤ PyStr.maxsize)%Z)
     ∧ ∃ s, stars int_of_str v = Returns s ∧ s ≠ "").
Proof.
  unfold stars. destruct (int int_of_str v) as [n|e]; simpl.
  - destruct (Z.ltb_spec 0 n) as [Hpos|Hneg].
    + destruct (decide (n ≤ PyStr.maxsize)%Z) as [Hle|Hgt].
      * right. split; [by intros ? [= <-]|].
        rewrite mul_fits by done. eexists. split; [done|].
        unfold PyStr.repeat.
        destruct (Z.to_nat n) as [|k] eqn:Hk; [lia|done].
      * left. exists n. split_and!; [done|lia|]. apply mul_overflow. lia.
    + right. split; [|by eexists].
      intros ? [= <-]. unfold PyStr.maxsize. lia.
  - right. split; [done|by eexists].
Qed.


End HelpersMore.

Lemma translate_text_cases_witness :
  Kakao.translate_text (λ _ _, Returns (Kakao.PyStr " 안녕 "))
    (Kakao.PyStr "おはよう") "korean"
  = Returns (Kakao.PyStr "안녕").
Proof.
  apply (proj1 (proj2 (translate_text_cases
                         (λ _ _, Returns (Kakao.PyStr " 안녕 "))))
           "おはよう" " 안녕 " "korean").
  - discriminate.
  - reflexivity.
Defined.


(** ** The Kakao requests *)

Section Requests.
Import Kakao Sender.

Variables client_id refresh_token : string.
Variable post : request → outcome response.
Variable json_str : json → string.
Variable float_str : pyfloat → string.
Variable int_of_str : string → outcome Z.
Variable today : string.

Local Abbreviation refresh := (refresh_access_token client_id refresh_token post).
Local Abbreviation token := (token_request client_id refresh_token).
Local Abbreviation send := (send_kakao_memo post json_str float_str).
Local Abbreviation memo := (memo_request json_str float_str).
Local Abbreviation build := (build_message_from_row float_str int_of_str today).

Lemma refresh_success access :
  refresh.2 = Returns access
  ↔ ∃ res d,
      post token = Returns res
      ∧ (res_status_code res < 400 ∨ 600 ≤ res_status_code res)%Z
      ∧ res_json res = Returns (JDict d)
      ∧ d !! "access_token" = Some access
      ∧ json_truthy access = true.
Proof.
  unfold refresh_access_token. cbn [snd]. split.
  - destruct (post token) as [res|] eqn:Hres; [|done]. simpl.
    unfold raise_for_status.
    destruct (Z.leb_spec 400 (res_status_code res)),
             (Z.ltb_spec (res_status_code res) 600); simpl; try done;
      (destruct (res_json res) as [[| | | | | |d]|] eqn:Hjs; simpl; try done;
       destruct (d !! "access_token") as [v|] eqn:Hv; simpl; [|done];
       destruct (json_truthy v) eqn:Htruthy; [|done];
       intros [= <-]; exists res, d; split_and!; try done; lia).
  - intros (res & d & -> & Hstatus & Hjs & Hd & Htruthy). simpl.
    unfold raise_for_status.
    destruct (Z.leb_spec 400 (res_status_code res)),
             (Z.ltb_spec (res_status_code res) 600); simpl; try lia;
      by rewrite Hjs; simpl; rewrite Hd; simpl; rewrite Htruthy.
Qed.

(** [refresh_access_token] sends one request.  It returns a token exactly
    when the answer has a status outside 400..599 and decodes to a dict
    whose ["access_token"] is truthy, and that value is the token; a status
    in 400..599 raises [HTTPError] whatever the body, and a dict without a
    truthy token raises [RuntimeError]. *)
Theorem refresh_access_token_outcome :
  refresh.1 = [token]
  ∧ (∀ access,
        refresh.2 = Returns access
        ↔ ∃ res d,
            post token = Returns res
            ∧ (res_status_code res < 400 ∨ 600 ≤ res_status_code res)%Z
            ∧ res_json res = Returns (JDict d)
            ∧ d !! "access_token" = Some access
            ∧ json_truthy access = true)
  ∧ (∀ res,
        post token = Returns res →
        (400 ≤ res_status_code res < 600)%Z →
        refresh.2 = Raises HTTPError)
  ∧ (∀ res d,
        post token = Returns res →
        (res_status_code res < 400 ∨ 600 ≤ res_status_code res)%Z →
        res_json res = Returns (JDict d) →
        json_truthy (default JNull (d !! "access_token")) = false →
        refresh.2 = Raises RuntimeError).
Proof.
  split; [done|]. split; [apply refresh_success|].
  unfold refresh_access_token. cbn [snd]. split.
  - intros res -> Hstatus. simpl. unfold raise_for_status.
    by destruct (Z.leb_spec 400 (res_status_code res)),
                (Z.ltb_spec (res_status_code res) 600); try lia.
  - intros res d -> Hstatus Hjs Hfalsy. simpl. unfold raise_for_status.
    destruct (Z.leb_spec 400 (res_status_code res)),
             (Z.ltb_spec (res_status_code res) 600); simpl; try lia;
      by rewrite Hjs; simpl; rewrite Hfalsy.
Qed.

Lemma send_returns access text web_url res :
  post (memo access text web_url) = Returns res →
  (send access text web_url).2
  = Returns match res_json res with
            | Returns js => js
            | Raises _ => fallback res
            end.
Proof.
  unfold send_kakao_memo. cbn [snd]. intros ->. simpl.
  by destruct (res_json res).
Qed.

Lemma send_raises access text web_url e :
  (send access text web_url).2 = Raises e
  ↔ post (memo access text web_url) = Raises e.
Proof.
  unfold send_kakao_memo. cbn [snd].
  destruct (post _) as [res|e']; simpl.
  - destruct (res_json res); simpl; split; discriminate.
  - split; congruence.
Qed.

(** [send_kakao_memo] sends one request and raises only when the POST
    itself raises: every answer, whatever its status, comes back as a
    value, its decoded body or, when it is no JSON, its status and text. *)
Theorem send_kakao_memo_outcome access text web_url :
  (send access text web_url).1 = [memo access text web_url]
  ∧ (∀ res,
        post (memo access text web_url) = Returns res →
        (send access text web_url).2
        = Returns match res_json res with
                  | Returns js => js
                  | Raises _ => fallback res
                  end)
  ∧ (∀ e, (send access text web_url).2 = Raises e
          ↔ post (memo access text web_url) = Raises e).
Proof.
  split; [done|]. split; [apply send_returns|apply send_raises].
Qed.

(** The scores of a row all fit a count. *)
Local Abbreviation scores_fit row :=
  (∀ k n, k ∈ ["금전"; "애정"; "업무"; "건강"] →
          int int_of_str (row_get row k (PyInt 0)) = Returns n →
          (n ≤ PyStr.maxsize)%Z).

(** Some score of a row is beyond the largest count. *)
Local Abbreviation overflowing row :=
  (∃ k n, k ∈ ["금전"; "애정"; "업무"; "건강"]
          ∧ int int_of_str (row_get row k (PyInt 0)) = Returns n
          ∧ (PyStr.maxsize < n)%Z).

Lemma build_message_body row body :
  stripped (or_else (row_get row "운세" PyNone) (PyStr "")) = Returns body →
  (overflowing row ∧ build row = Raises OverflowError)
  ∨ (scores_fit row
     ∧ ∃ text,
         build row
         = Returns (text, or_else (row_get row "링크" PyNone) PyNone)).
Proof.
  intros Hbody. unfold build_message_from_row. rewrite Hbody. simpl.
  destruct (stars_cases int_of_str (row_get row "금전" (PyInt 0)))
    as [(n & Hn & Hgt & ->)|(Hmoney & ? & -> & _)];
    [left; split; [exists "금전", n; split; [set_solver|done]|done]|].
  simpl.
  destruct (stars_cases int_of_str (row_get row "애정" (PyInt 0)))
    as [(n & Hn & Hgt & ->)|(Hlove & ? & -> & _)];
    [left; split; [exists "애정", n; split; [set_solver|done]|done]|].
  simpl.
  destruct (stars_cases int_of_str (row_get row "업무" (PyInt 0)))
    as [(n & Hn & Hgt & ->)|(Hwork & ? & -> & _)];
    [left; split; [exists "업무", n; split; [set_solver|done]|done]|].
  simpl.
  destruct (stars_cases int_of_str (row_get row "건강" (PyInt 0)))
    as [(n & Hn & Hgt & ->)|(Hhealth & ? & -> & _)];
    [left; split; [exists "건강", n; split; [set_solver|done]|done]|].
  simpl. right. split; [|by eexists].
  intros k n Hk Hn.
  repeat (apply elem_of_cons in Hk as [->|Hk]; [eauto|]). inv Hk.
Qed.

Lemma scores_fit_not_overflowing row : scores_fit row → ¬ overflowing row.
Proof.
  intros Hfit (k & n & Hk & Hn & Hgt). specialize (Hfit k n Hk Hn). lia.
Qed.

Lemma build_message_raises row v :
  row !! "운세" = Some v → truthy v = true → is_str v = false →
  build row = Raises AttributeError.
Proof.
  intros Hcell Ht Hs. unfold build_message_from_row, row_get.
  rewrite Hcell. simpl. unfold or_else. rewrite Ht. by destruct v.
Qed.

Lemma build_message_strips row :
  (∀ v, row !! "운세" = Some v → truthy v && negb (is_str v) = false) →
  ∃ body, stripped (or_else (row_get row "운세" PyNone) (PyStr ""))
          = Returns body.
Proof.
  intros Hcell.
  unfold row_get. destruct (row !! "운세") as [v|]; simpl; [|by eexists].
  specialize (Hcell v eq_refl). unfold or_else.
  destruct (truthy v) eqn:Ht; [|by eexists].
  destruct v; try done. by eexists.
Qed.

Lemma build_message_returns row :
  (∀ v, row !! "운세" = Some v → truthy v && negb (is_str v) = false) →
  scores_fit row →
  ∃ text,
    build row
    = Returns (text, or_else (row_get row "링크" PyNone) PyNone).
Proof.
  intros [body Hbody]%build_message_strips Hfit.
  destruct (build_message_body row body Hbody) as [[Hover _]|[_ ?]]; [|done].
  by apply scores_fit_not_overflowing in Hfit.
Qed.

(** The three ways out of [build_message_from_row]. *)
Lemma build_message_cases row :
  ((∃ v, row !! "운세" = Some v ∧ truthy v = true ∧ is_str v = false)
   ∧ build row = Raises AttributeError)
  ∨ ((∀ v, row !! "운세" = Some v → truthy v && negb (is_str v) = false)
     ∧ overflowing row ∧ build row = Raises OverflowError)
  ∨ ((∀ v, row !! "운세" = Some v → truthy v && negb (is_str v) = false)
     ∧ scores_fit row
     ∧ ∃ text,
         build row
         = Returns (text, or_else (row_get row "링크" PyNone) PyNone)).
Proof.
  assert ((∃ v, row !! "운세" = Some v ∧ truthy v = true ∧ is_str v = false)
          ∨ (∀ v, row !! "운세" = Some v
                  → truthy v && negb (is_str v) = false)) as [Hbad|Hgood].
  { destruct (row !! "운세") as [v|]; [|by right].
    destruct (truthy v && negb (is_str v)) eqn:Hv.
    - apply andb_prop in Hv as [Ht Hs%negb_true_iff]. left. by exists v.
    - right. by intros ? [= <-]. }
  - left. split; [done|]. destruct Hbad as (v & ? & ? & ?).
    by eapply build_message_raises.
  - right. destruct (build_message_strips row Hgood) as [body Hbody].
    destruct (build_message_body row body Hbody) as [[??]|[??]]; auto.
Qed.

Lemma build_message_link row text link :
  build row = Returns (text, link) →
  link = match row !! "링크" with
         | Some v => if truthy v then v else PyNone
         | None => PyNone
         end.
Proof.
  intros Hbuild.
  destruct (build_message_cases row)
    as [[_ Hr]|[(_ & _ & Hr)|(_ & _ & text' & Hr)]];
    rewrite Hr in Hbuild; try done.
  injection Hbuild as _ <-.
  unfold or_else, row_get. by destruct (row !! "링크").
Qed.


(** The link that goes into the template is never empty: it is the 링크
    cell of the row when that is truthy, and the Kakao home page when the
    cell is absent, empty or falsy. *)
Theorem template_link_never_empty row text link :
  build row = Returns (text, link) →
  truthy (memo_link link) = true
  ∧ memo_link link
    = match row !! "링크" with
      | Some v => if truthy v then v else PyStr "https://www.kakao.com"
      | None => PyStr "https://www.kakao.com"
      end.
Proof.
  intros ->%build_message_link. unfold memo_link.
  destruct (row !! "링크") as [v|]; [|done].
  destruct (truthy v) eqn:Hv; [by rewrite Hv|done].
Qed.

End Requests.

Lemma refresh_access_token_outcome_witness :
  (Sender.refresh_access_token "id" "secret"
     (λ _, Returns {| Sender.res_status_code := 401;
                      Sender.res_text := "{}";
                      Sender.res_json := Returns (Sender.JDict ∅) |})).2
  = Raises Sender.HTTPError.
Proof.
  eapply (proj1 (proj2 (proj2 (refresh_access_token_outcome _ _ _)))).
  - reflexivity.
  - simpl. lia.
Defined.

Lemma send_kakao_memo_outcome_witness :
  (Sender.send_kakao_memo
     (λ _, Returns {| Sender.res_status_code := 401;
                      Sender.res_text := "denied";
                      Sender.res_json := Raises ValueError |})
     (λ _, "") (λ _, "nan") (Sender.JStr "t") "text" Kakao.PyNone).2
  = Returns (Sender.JDict (<["text" := Sender.JStr "denied"]>
                             {["status_code" := Sender.JInt 401]})).
Proof.
  apply (proj1 (proj2 (send_kakao_memo_outcome _ _ _ _ _ _))
           {| Sender.res_status_code := 401;
              Sender.res_text := "denied";
              Sender.res_json := Raises ValueError |}).
  reflexivity.
Defined.


Lemma template_link_never_empty_witness :
  ∃ text link,
    Sender.build_message_from_row (λ _, "nan") (λ _, Raises ValueError)
      "2026-11-03"
      (Sender.series false
         {| Crawler.z_rank := 1;
            Crawler.z_name := Some "황소자리";
            Crawler.z_cols :=
              Some (Crawler.d_cols
                      (Crawler.detail_row_of Fixture.empty_id_box)) |})
    = Returns (text, link)
    ∧ Sender.memo_link link = Kakao.PyStr "https://www.kakao.com".
Proof.
  match goal with
  | |- ∃ text link, ?b = _ ∧ _ =>
      destruct b as [[text link]|e] eqn:Hbuild;
        [|vm_compute in Hbuild; discriminate]
  end.
  exists text, link. split; [done|].
  rewrite (proj2 (template_link_never_empty _ _ _ _ _ _ Hbuild)).
  vm_compute. reflexivity.
Defined.

(** ** The browser session *)

Section Session.
Import Browser.

Variable launch : list string → outcome ().
Variable get : string → outcome ().
Variable page_source : outcome string.
Variable quit : outcome ().

Local Abbreviation fetch := (fetch_html launch get page_source quit).

(** [fetch_html] never leaves a browser behind.  If Chrome does not start,
    nothing else is asked of it; once it has started, whatever loading the
    page and reading its source do, the session ends with a single [Quit],
    which is its last event.  The page source is returned exactly when
    starting, loading, reading and quitting all succeed. *)
Theorem fetch_html_quits url headless :
  (∀ e, launch (chrome_arguments headless) = Raises e →
        fetch url headless = ([Launch (chrome_arguments headless)], Raises e))
  ∧ (launch (chrome_arguments headless) = Returns () →
     ∃ events,
       (fetch url headless).1
       = Launch (chrome_arguments headless) :: (events ++ [Quit])
       ∧ (Quit ∉ events)
       ∧ Get url ∈ events)
  ∧ (∀ html,
        (fetch url headless).2 = Returns html
        ↔ launch (chrome_arguments headless) = Returns ()
          ∧ get url = Returns ()
          ∧ page_source = Returns html
          ∧ quit = Returns ()).
Proof.
  unfold fetch_html, load. split_and!.
  - by intros e ->.
  - intros ->. destruct (get url).
    + exists [Get url; Sleep 2; PageSource]. split; [done|]. split.
      * intros Hin. repeat (apply elem_of_cons in Hin as [?|Hin]; [done|]).
        by inversion Hin.
      * by left.
    + exists [Get url]. split; [done|]. split; [|by left].
      intros [?|Hin]%elem_of_cons; [done|]. by inversion Hin.
  - intros html. destruct (launch _) as [[]|]; cycle 1.
    { split; [done|]. by intros (? & _). }
    destruct (get url) as [[]|]; cbn [snd].
    + destruct quit as [[]|].
      * split; [by intros ->|]. by intros (_ & _ & -> & _).
      * split; [done|]. by intros (_ & _ & _ & ?).
    + destruct quit as [[]|].
      * split; [done|]. by intros (_ & ? & _).
      * split; [done|]. by intros (_ & ? & _).
Qed.

End Session.

Lemma fetch_html_quits_witness :
  ∃ events,
    (Browser.fetch_html (λ _, Returns ()) (λ _, Raises (LibraryError "Timeout"))
       (Returns "<html></html>") (Returns ()) Browser.URL true).1
    = Browser.Launch (Browser.chrome_arguments true)
        :: (events ++ [Browser.Quit])
    ∧ (Browser.Quit ∉ events)
    ∧ Browser.Get Browser.URL ∈ events.
Proof.
  apply (proj1 (proj2 (fetch_html_quits
                         (λ _, Returns ()) (λ _, Raises (LibraryError "Timeout"))
                         (Returns "<html></html>") (Returns ())
                         Browser.URL true))).
  reflexivity.
Defined.

(** ** The run of the script *)

Section Run.
Import Kakao Sender.

Variables client_id refresh_token : string.
Variable post : request → outcome response.
Variable json_str : json → string.
Variable float_str : pyfloat → string.
Variable int_of_str : string → outcome Z.
Variable translate : string → string → outcome pyval.
Variable today : string.
Variable get_zodiak_data : bool → outcome (list Crawler.zodiak_row).

Local Abbreviation refresh := (refresh_access_token client_id refresh_token post).
Local Abbreviation token := (token_request client_id refresh_token).
Local Abbreviation memo := (memo_request json_str float_str).
Local Abbreviation ready :=
  (prepare float_str int_of_str translate today get_zodiak_data).
Local Abbreviation run :=
  (main client_id refresh_token post json_str float_str int_of_str translate
     today get_zodiak_data).

Lemma main_cases :
  match ready with
  | Raises e => run = ([], Raises e)
  | Returns (text, web_url) =>
      match refresh.2 with
      | Raises e => run = ([token], Raises e)
      | Returns access =>
          run = ([token; memo access text web_url],
                 (send_kakao_memo post json_str float_str
                    access text web_url).2)
      end
  end.
Proof.
  unfold main. destruct ready as [[text web_url]|e]; [|done].
  unfold refresh_access_token. cbn [fst snd].
  by destruct (_ ≫= _).
Qed.

(** Nothing is sent when the preparation of the message fails; and a memo
    request is sent at most once, as the second request of the run, after
    the token request has brought back a truthy token, which it carries in
    its [Authorization] header. *)
Theorem main_requests :
  (∀ e, ready = Raises e → run = ([], Raises e))
  ∧ (∀ req,
        req ∈ run.1 →
        url req = MEMO_SEND_URL →
        ∃ access text web_url,
          ready = Returns (text, web_url)
          ∧ refresh.2 = Returns access
          ∧ json_truthy access = true
          ∧ req = memo access text web_url
          ∧ run.1 = [token; req]).
Proof.
  pose proof main_cases as Hcases. split.
  - intros e He. by rewrite He in Hcases.
  - intros req Hreq Hurl.
    destruct ready as [[text web_url]|e]; [|rewrite Hcases in Hreq; inv Hreq].
    destruct refresh.2 as [access|e] eqn:Haccess; rewrite Hcases in Hreq |- *.
    + cbn [fst] in Hreq. apply elem_of_cons in Hreq as [->|Hreq]; [done|].
      apply list_elem_of_singleton in Hreq as ->.
      exists access, text, web_url. split_and!; try done.
      apply refresh_success in Haccess as (? & ? & _ & _ & _ & _ & ?).
      done.
    + cbn [fst] in Hreq. apply list_elem_of_singleton in Hreq as ->. done.
Qed.

(** The script ends with status 0 exactly when the message was prepared,
    a token was obtained and the POST of the memo brought back an answer,
    whatever the status and the body of that answer. *)
Theorem exit_status_zero :
  exit_status client_id refresh_token post json_str float_str int_of_str
    translate today get_zodiak_data
  = 0%Z
  ↔ ∃ text web_url access res,
      prepare float_str int_of_str translate today get_zodiak_data
      = Returns (text, web_url)
      ∧ (refresh_access_token client_id refresh_token post).2
        = Returns access
      ∧ post (memo_request json_str float_str access text web_url)
        = Returns res.
Proof.
  pose proof main_cases as Hcases. unfold exit_status.
  destruct ready as [[text web_url]|e]; cycle 1.
  { rewrite Hcases. split; [done|]. by intros (? & ? & ? & ? & ? & _). }
  destruct refresh.2 as [access|e]; rewrite Hcases; cycle 1.
  { split; [done|]. by intros (? & ? & ? & ? & _ & ? & _). }
  cbn [snd].
  destruct (post (memo access text web_url)) as [res|e] eqn:Hpost.
  - rewrite (send_returns _ _ _ _ _ _ _ Hpost). split; [|done]. intros _.
    by exists text, web_url, access, res.
  - rewrite (proj2 (send_raises _ _ _ _ _ _ _) Hpost). split; [done|].
    intros (? & ? & ? & ? & [= <- <-] & [= <-] & ?). congruence.
Qed.

End Run.

Lemma main_requests_witness :
  Sender.main "id" "secret" (λ _, Raises (LibraryError "ConnectionError"))
    (λ _, "") (λ _, "nan") (λ _, Raises ValueError)
    (λ _ _, Raises (LibraryError "RequestError")) "2026-11-03"
    (λ _, Raises ValueError)
  = ([], Raises ValueError).
Proof.
  apply (proj1 (main_requests _ _ _ _ _ _ _ _ _)).
  reflexivity.
Defined.

Lemma exit_status_zero_witness :
  Sender.exit_status "id" "secret"
    (λ _, Returns {| Sender.res_status_code := 200;
                     Sender.res_text := "";
                     Sender.res_json :=
                       Returns (Sender.JDict
                                  {["access_token" := Sender.JStr "t"]}) |})
    (λ _, "") (λ _, "nan") (λ _, Raises ValueError)
    (λ _ _, Raises (LibraryError "RequestError")) "2026-11-03"
    (λ _, Crawler.parse_zodiac Fixture.scenario)
  = 0%Z.
Proof.
  apply (proj2 (exit_status_zero _ _ _ _ _ _ _ _ _)).
  eexists _, _, _, _. split_and!; vm_compute; reflexivity.
Defined.

(** ** From the page to the message *)

Section Pipeline.
Import Soup Crawler Page Kakao Sender.
Local Open Scope nat_scope.

Variable float_str : pyfloat → string.
Variable int_of_str : string → outcome Z.
Variable translate : string → string → outcome pyval.
Variable today : string.

Lemma taurus_label jp :
  jp_to_kr !! jp = Some "황소자리" ↔ jp = "おうし座".
Proof.
  split; [|by intros ->].
  intros Hjp%jp_to_kr_items_spec.
  assert (Forall (λ kv, kv.1 = "황소자리" → kv.2 = "おうし座")
            zodiak_kr_jp_items) as Hall by decide_by_computation.
  by apply (proj1 (Forall_forall _ _) Hall ("황소자리", jp)).
Qed.

Lemma taurus_id zid :
  zodiak_eng !! zid = Some "황소자리" ↔ zid = "ousi".
Proof.
  split; [|by intros ->].
  intros Hzid. by apply (zodiak_eng_inj zid "ousi" "황소자리").
Qed.

(** What the translation loop may change in a cell: a string may become
    another string, everything else stays. *)
Lemma translate_text_shape v target :
  ∃ v', translate_text translate v target = Returns v'
        ∧ (is_str v = true ∧ is_str v' = true ∨ v' = v).
Proof.
  unfold translate_text.
  destruct (negb (truthy v) || negb (is_str v)); [eauto|].
  destruct v as [| | | |s]; eauto.
  destruct (translate target s) as [[| | | |t]|e]; simpl; eauto.
Qed.

Lemma translate_cell_shape (row : gmap string pyval) col :
  ∃ row' : gmap string pyval,
    translate_cell translate (Returns row) col = Returns row'
    ∧ (∀ k, k ≠ col → row' !! k = row !! k)
    ∧ ∀ k, match row !! k with
           | Some v =>
               ∃ v', row' !! k = Some v'
                     ∧ (is_str v = true ∧ is_str v' = true ∨ v' = v)
           | None => row' !! k = None
           end.
Proof.
  assert (∀ k, match row !! k with
               | Some v =>
                   ∃ v', row !! k = Some v'
                         ∧ (is_str v = true ∧ is_str v' = true ∨ v' = v)
               | None => row !! k = None
               end) as Hsame by (intros k; destruct (row !! k); eauto).
  unfold translate_cell. simpl.
  destruct (row !! col) as [v|] eqn:Hcol; [|eauto].
  destruct (notna v); [|eauto].
  destruct (translate_text_shape v "korean") as (v' & -> & Hshape). simpl.
  eexists. split; [done|]. split.
  { intros k Hne. by rewrite lookup_insert_ne. }
  intros k. destruct (decide (k = col)) as [->|Hne].
  - rewrite Hcol, lookup_insert_eq. eauto.
  - rewrite lookup_insert_ne by done. apply Hsame.
Qed.

Lemma translate_cells_shape (row : gmap string pyval) :
  ∃ row' : gmap string pyval,
    translate_cells translate row = Returns row'
    ∧ row' !! "링크" = row !! "링크"
    ∧ ∀ k, match row !! k with
           | Some v =>
               ∃ v', row' !! k = Some v'
                     ∧ (is_str v = true ∧ is_str v' = true ∨ v' = v)
           | None => row' !! k = None
           end.
Proof.
  unfold translate_cells.
  assert ("링크" ∉ ["운세"; "행운의 색"; "행운의 물건"]) as Hlink
    by decide_by_computation.
  revert Hlink. generalize ["운세"; "행운의 색"; "행운의 물건"]%list.
  intros cols. revert row.
  induction cols as [|col cols IH]; intros row Hlink.
  { exists row. split_and!; [done..|]. intros k. destruct (row !! k); eauto. }
  apply not_elem_of_cons in Hlink as [Hne Hlink].
  destruct (translate_cell_shape row col) as (row1 & Hrow1 & Hkeep1 & H1).
  destruct (IH row1 Hlink) as (row2 & Hrow2 & Hkeep2 & H2).
  exists row2. split_and!; [cbn [foldl]; by rewrite Hrow1| |].
  { rewrite Hkeep2. by apply Hkeep1. }
  intros k. specialize (H1 k). specialize (H2 k).
  destruct (row !! k) as [v|]; [|by rewrite H1 in H2].
  destruct H1 as (v1 & Hv1 & Hs1). rewrite Hv1 in H2.
  destruct H2 as (v2 & Hv2 & Hs2). exists v2. split; [done|].
  destruct Hs1 as [[??]| ->], Hs2 as [[??]| ->]; auto.
Qed.

Lemma series_read floats r :
  series floats r !! "운세"
  = Some match z_cols r with
         | Some cols => PyStr (read cols)
         | None => PyFloat NaN
         end.
Proof. by destruct r as [? ? [?|]]. Qed.

Lemma series_link floats r :
  series floats r !! "링크"
  = Some match z_cols r with
         | Some cols => PyStr (link cols)
         | None => PyFloat NaN
         end.
Proof. by destruct r as [? ? [?|]]. Qed.

(** A score cell of a frame row is no string and within the range of a
    count. *)
Lemma series_score floats r k :
  k ∈ ["금전"; "애정"; "업무"; "건강"] →
  ∃ v, series floats r !! k = Some v
       ∧ is_str v = false
       ∧ ∀ n, int int_of_str v = Returns n → (n ≤ PyStr.maxsize)%Z.
Proof.
  assert (∀ c, count c * 1 ≤ PyStr.maxsize)%Z as Hlen
    by (intros c; unfold count; lia).
  intros Hk.
  repeat (apply elem_of_cons in Hk as [->|Hk]); [..|inv Hk];
    destruct r as [? ? [cols|]], floats;
    (eexists; split; [reflexivity|]; split; [done|]);
    intros n [= <-]; first [apply Hlen|unfold count; lia].
Qed.

Variable get_zodiak_data : bool → outcome (list zodiak_row).

Lemma ranked_row soup rows rank_box i li :
  parse_zodiac soup = Returns rows →
  find "ul" (Some "rank-box") soup = Some rank_box →
  find_all "li" None rank_box !! i = Some li →
  i < 12 →
  ∃ row, row ∈ rows ∧ z_name row = label li ≫= (jp_to_kr !!.).
Proof.
  intros (rank_box' & detail & Hr' & _ & _ & _ & ->)%parse_zodiac_returns
    Hr Hli Hi.
  assert (rank_box' = rank_box) as -> by congruence.
  set (l := rank_and_name (ranking_row (S i) li)).
  destruct (join_row_inhabited l (detail_rows detail)) as [row Hrow].
  exists row. split.
  - apply list_elem_of_bind. exists l. split; [done|].
    apply list_elem_of_fmap_2, (list_elem_of_lookup_2 _ i).
    by rewrite ranking_rows_lookup, lookup_take_lt, Hli.
  - by apply join_row_elem in Hrow as (_ & -> & _).
Qed.

(** From the page to the message.  When the crawler returns the rows of a
    page, the preparation of the message has three outcomes: without a
    ranking item labelled ["おうし座"] among the first twelve it raises
    [RuntimeError]; with such an item but without a detail sub-block of id
    ["ousi"] among the first twelve it raises [AttributeError] (the
    narrative of the selected row is not-a-number); with both it returns a
    text together with the link made of the base URL and ["#ousi"]. *)
Theorem prepare_outcome soup rows rank_box detail :
  get_zodiak_data true = parse_zodiac soup →
  parse_zodiac soup = Returns rows →
  find "ul" (Some "rank-box") soup = Some rank_box →
  find "div" (Some "seiza-area") soup = Some detail →
  let ranked :=
    ∃ i li, find_all "li" None rank_box !! i = Some li
            ∧ i < 12 ∧ label li = Some "おうし座" in
  let detailed :=
    ∃ j box, find_all "div" (Some "seiza-box") detail !! j = Some box
             ∧ j < 12 ∧ get "id" box = Some "ousi" in
  let ready := prepare float_str int_of_str translate today get_zodiak_data in
  (¬ ranked → ready = Raises RuntimeError)
  ∧ (ranked → ¬ detailed → ready = Raises AttributeError)
  ∧ (ranked → detailed →
     ∃ text, ready = Returns (text, PyStr (BASE_URL ++ "#ousi")%string)).
Proof.
  intros Hcrawl Hrows Hr Hd ranked detailed ready.
  assert (ready
          = match select "황소자리" rows with
            | [] => Raises RuntimeError
            | r :: _ =>
                translate_cells translate (series (has_null rows) r)
                  ≫= build_message_from_row float_str int_of_str today
            end) as Hready.
  { unfold ready, prepare. rewrite Hcrawl, Hrows. simpl.
    by destruct (select _ _). }
  destruct (select "황소자리" rows) as [|r rest] eqn:Hsel.
  { (* no row of the sign: no ranking item carries its label *)
    assert (¬ ranked) as Hnot.
    { intros (i & li & Hli & Hi & Hlabel).
      destruct (ranked_row _ _ _ _ _ Hrows Hr Hli Hi) as (row & Hrow & Hname).
      rewrite Hlabel in Hname. simpl in Hname.
      assert (row ∈ select "황소자리" rows) as Hin
        by (apply list_elem_of_filter; split; [by rewrite Hname|done]).
      rewrite Hsel in Hin. inv Hin. }
    split_and!; [done|by intros ?..]. }
  assert (r ∈ rows ∧ z_name r = Some "황소자리") as [Hin Hname].
  { assert (r ∈ select "황소자리" rows) as Hr' by (rewrite Hsel; by left).
    by apply list_elem_of_filter in Hr' as [??]. }
  destruct (row_origin _ _ _ Hrows Hin)
    as (rank_box' & detail' & i & li & Hr' & Hd' & Hli & Hi & _ & Hlabel
        & Hcols).
  assert (rank_box' = rank_box) as -> by congruence.
  assert (detail' = detail) as -> by congruence.
  assert ranked as Hranked.
  { exists i, li. split_and!; try done. rewrite Hname in Hlabel.
    destruct (label li) as [jp|]; [|done]. simpl in Hlabel.
    symmetry in Hlabel. by apply taurus_label in Hlabel as ->. }
  destruct (translate_cells_shape (series (has_null rows) r))
    as (row' & Hrow' & Hlink & Hshape).
  rewrite Hrow' in Hready. simpl in Hready.
  pose proof (Hshape "운세") as Hread. rewrite series_read in Hread.
  rewrite series_link in Hlink.
  destruct (z_cols r) as [cols|] eqn:Hsome.
  - (* the row has a partner: some sub-block has the id of the sign *)
    destruct Hcols as (j & box & Hbox & Hj & Hid & ->).
    rewrite Hname in Hid.
    destruct (get "id" box) as [zid|] eqn:Hzid; [|done]. simpl in Hid.
    apply taurus_id in Hid as ->.
    assert detailed as Hdetailed by (exists j, box; done).
    split_and!; [done|done|]. intros _ _.
    destruct (build_message_returns float_str int_of_str today row')
      as [text Htext].
    { intros v Hv. destruct Hread as (v' & Hv' & Hstr).
      assert (v' = v) as -> by congruence.
      destruct Hstr as [[_ ->]| ->]; [apply andb_false_r|].
      apply andb_false_r. }
    { intros k n Hk Hn.
      destruct (series_score (has_null rows) r k Hk) as (v & Hv & Hs & Hfit).
      specialize (Hshape k). rewrite Hv in Hshape.
      destruct Hshape as (v' & Hv' & [[? _]| ->]); [congruence|].
      unfold row_get in Hn. rewrite Hv' in Hn. by apply Hfit. }
    exists text. rewrite Hready, Htext. do 2 f_equal.
    unfold or_else, row_get. by rewrite Hlink, detail_row_link, Hzid.
  - (* the row has no partner: no sub-block has the id of the sign *)
    assert (¬ detailed) as Hnot.
    { intros (j & box & Hbox & Hj & Hid).
      apply (Hcols j box Hbox Hj). by rewrite Hid, Hname. }
    split_and!; [done| |done]. intros _ _.
    destruct Hread as (v' & Hv' & [[? _]| ->]); [done|].
    by rewrite Hready, (build_message_raises _ _ _ row' (PyFloat NaN)).
Qed.

End Pipeline.

Lemma prepare_outcome_witness :
  Sender.prepare (λ _, "nan") (λ _, Raises ValueError)
    (λ _ _, Raises (LibraryError "RequestError")) "2026-11-03"
    (λ _, Crawler.parse_zodiac Fixture.empty_id_page)
  = Raises AttributeError.
Proof.
  refine (proj1 (proj2 (prepare_outcome _ _ _ _ _ Fixture.empty_id_page
                          (Page.rows_of Fixture.empty_id_page)
                          (Fixture.el "ul" ["rank-box"]
                             (Fixture.rank_li <$> Fixture.jp_labels))
                          (Fixture.el "div" ["seiza-area"]
                             [Fixture.empty_id_box])
                          _ _ _ _)) _ _).
  - reflexivity.
  - vm_compute; reflexivity.
  - vm_compute; reflexivity.
  - vm_compute; reflexivity.
  - exists 0, (Fixture.rank_li "おうし座").
    split_and!; [vm_compute; reflexivity|lia|vm_compute; reflexivity].
  - intros (j & box & Hbox & Hj & Hid).
    destruct j as [|j]; vm_compute in Hbox; [|by destruct j].
    injection Hbox as <-. vm_compute in Hid. discriminate.
Defined.
